(** * Green-Logistics: emission and route-optimisation engine

    A shallow embedding of the computational core of [app.py]:
    [get_coordinates], [calculate_distance], [calculate_co2],
    [optimize_route] and the carbon-price conversion performed in [main].

    Numbers.  Python's [float] is IEEE 754 binary64.  The code is read
    twice.  Over exact arithmetic: rationals ([Q]) for the emission model,
    the optimiser and the pricing code, whose definitions are executable,
    and real numbers ([R]) for the distance calculator, which needs [sin],
    [cos], [atan2] and [sqrt]; [float('inf')], which the optimiser uses as
    the initial minimum, is kept there as an explicit extra value.  The
    statements about which candidate is selected, about order, data flow
    and independence are made on this reading.  And over binary64
    ([Binary64]), with its rounding, overflow, infinities and NaN, for the
    emission model and the optimiser: the statements about the rounded
    value itself and about numeric tolerances are made on that reading.

    Exceptions.  A dictionary subscript [d[k]] raises [KeyError] and
    [math.sqrt] raises [ValueError]; both are outcomes of the embedding. *)

From Stdlib Require Import PrimFloat FloatOps SpecFloat.
From Stdlib Require Import QArith Qround Qabs Reals Lra Lia Psatz.
From stdpp Require Import gmap strings.
From Stdlib Require Import Ascii Qpower.

(** ** Outcomes of a Python call *)

Inductive exn : Type :=
| KeyError (key : string)
| ValueError (msg : string).

Inductive outcome (A : Type) : Type :=
| Returned (a : A)
| Raised (e : exn).

Arguments Returned {A} a.
Arguments Raised {A} e.

#[global] Instance outcome_ret : MRet outcome := fun A a => Returned a.

#[global] Instance outcome_bind : MBind outcome := fun A B k m =>
  match m with
  | Returned a => k a
  | Raised e => Raised e
  end.

(** [d[key]]: subscript of a dictionary with string keys. *)
Definition subscript {V : Type} (d : gmap string V) (key : string) : outcome V :=
  match d !! key with
  | Some v => Returned v
  | None => Raised (KeyError key)
  end.

(** [d.get(key, dflt)]. *)
Definition dict_get {V : Type} (d : gmap string V) (key : string) (dflt : V) : V :=
  default dflt (d !! key).

(** [for x in l: st = body st x], stopping at the first exception. *)
Fixpoint for_each {S A : Type} (body : S -> A -> outcome S) (l : list A) (st : S)
  : outcome S :=
  match l with
  | [] => Returned st
  | x :: l' =>
      match body st x with
      | Returned st' => for_each body l' st'
      | Raised e => Raised e
      end
  end.

(** ** Exact arithmetic on [Q] *)

Open Scope Q_scope.

Definition Qltb (x y : Q) : bool :=
  match x ?= y with Lt => true | _ => false end.

Definition Qleb (x y : Q) : bool :=
  match x ?= y with Gt => false | _ => true end.

(** A float that may be [float('inf')]. *)
Inductive pyfloat : Type :=
| Real (q : Q)
| Inf.

(** [x < m] for a finite [x]. *)
Definition lt_float (x : Q) (m : pyfloat) : bool :=
  match m with
  | Real q => Qltb x q
  | Inf => true
  end.

(** Nearest integer, halves going to the even neighbour. *)
Definition round_half_even (x : Q) : Z :=
  let f := Qfloor x in
  match ((x - inject_Z f) ?= (1 # 2))%Q with
  | Lt => f
  | Gt => (f + 1)%Z
  | Eq => if Z.even f then f else (f + 1)%Z
  end.

(** [round(x, ndigits)] for [ndigits >= 0]. *)
Definition round (x : Q) (ndigits : nat) : Q :=
  let scale := inject_Z (10 ^ Z.of_nat ndigits) in
  inject_Z (round_half_even (x * scale)) / scale.

(** [round(m, ndigits)] where [m] may be infinite: infinity rounds to itself. *)
Definition round_float (m : pyfloat) (ndigits : nat) : pyfloat :=
  match m with
  | Real q => Real (round q ndigits)
  | Inf => Inf
  end.

(** ** Reference data *)

Definition EMISSION_FACTORS : gmap string Q :=
  {[ "Truck" := 0.096; "Train" := 0.028; "Ship" := 0.016; "Plane" := 0.602 ]}.

Definition CARBON_PRICE_EUR_PER_TON : Q := 65.89.

Definition EXCHANGE_RATES : gmap string Q :=
  {[ "EUR" := 1.0; "USD" := 1.06; "AUD" := 1.62; "SAR" := 3.98 ]}.

(** ** Emission model *)

Definition calculate_co2 (country1 city1 country2 city2 transport_mode : string)
    (distance_km weight_tons : Q) : Q :=
  let emission_factor := dict_get EMISSION_FACTORS transport_mode 0.096 in
  let co2_kg := distance_km * weight_tons * emission_factor in
  round co2_kg 2.

(** ** Route optimiser *)

(** One entry of [combinations]: [(mode1, ratio1, mode2, ratio2)], where
    [mode2] may be [None]. *)
Definition combination : Type := string * Q * option string * Q.

(** Truth value of [mode2] in [if mode2]: [None] and the empty string are
    false. *)
Definition truthy (mode : option string) : bool :=
  match mode with
  | Some s => bool_decide (s <> "")
  | None => false
  end.

(** The list built by the [if]/[elif]/[else] cascade of [optimize_route]. *)
Definition combinations (country1 country2 : string) (distance_km : Q)
  : list combination :=
  let intercontinental := bool_decide (country1 <> country2) in
  let distance_short := Qltb distance_km 1000 in
  let distance_medium := Qleb 1000 distance_km && Qltb distance_km 5000 in
  let distance_long := Qleb 5000 distance_km in
  if intercontinental then
    if distance_long then
      [ ("Ship", 0.9, Some "Train", 0.1);
        ("Ship", 0.8, Some "Truck", 0.2);
        ("Plane", 0.5, Some "Ship", 0.5) ]
    else if distance_medium then
      [ ("Ship", 0.7, Some "Train", 0.3);
        ("Plane", 0.4, Some "Truck", 0.6);
        ("Ship", 0.6, Some "Plane", 0.4) ]
    else
      [ ("Train", 0.8, Some "Truck", 0.2);
        ("Ship", 0.5, Some "Truck", 0.5);
        ("Plane", 0.3, Some "Truck", 0.7) ]
  else
    if distance_short then
      [ ("Train", 0.9, Some "Truck", 0.1);
        ("Truck", 1.0, None, 0.0);
        ("Train", 1.0, None, 0.0) ]
    else
      [ ("Train", 0.7, Some "Truck", 0.3);
        ("Truck", 0.6, Some "Train", 0.4);
        ("Plane", 0.3, Some "Truck", 0.7) ].

(** The four variables the search loop updates. *)
Record search_state : Type := {
  best_option : option combination;
  min_co2 : pyfloat;
  best_breakdown : option (Q * Q);
  best_distances : option (Q * Q)
}.

Definition search_init : search_state :=
  {| best_option := None; min_co2 := Inf;
     best_breakdown := None; best_distances := None |}.

(** Body of [for mode1, ratio1, mode2, ratio2 in combinations]. *)
Definition search_body (distance_km weight_tons : Q) (st : search_state)
    (c : combination) : outcome search_state :=
  let '(mode1, ratio1, mode2, ratio2) := c in
  let dist1 := distance_km * ratio1 in
  let dist2 := if truthy mode2 then distance_km * ratio2 else 0 in
  f1 ← subscript EMISSION_FACTORS mode1;
  let co2_1 := dist1 * weight_tons * f1 in
  co2_2 ← (if truthy mode2
           then f2 ← subscript EMISSION_FACTORS (default "" mode2);
                mret (dist2 * weight_tons * f2)
           else mret 0);
  let total_co2 := co2_1 + co2_2 in
  if lt_float total_co2 (min_co2 st) then
    mret {| best_option := Some (mode1, ratio1, mode2, ratio2);
            min_co2 := Real total_co2;
            best_breakdown := Some (co2_1, co2_2);
            best_distances := Some (dist1, dist2) |}
  else mret st.

Definition optimize_route (country1 city1 country2 city2 : string)
    (distance_km weight_tons : Q)
  : outcome (option combination * pyfloat * option (Q * Q) * option (Q * Q)) :=
  st ← for_each (search_body distance_km weight_tons)
         (combinations country1 country2 distance_km) search_init;
  mret (best_option st, round_float (min_co2 st) 2,
        best_breakdown st, best_distances st).

(** ** Carbon pricing (the conversion in [main], "Route Optimization" tab) *)

Definition carbon_price_per_kg (currency : string) : outcome Q :=
  rate ← subscript EXCHANGE_RATES currency;
  mret ((CARBON_PRICE_EUR_PER_TON / 1000) * rate).

Definition total_cost_savings (total_savings : Q) (currency : string) : outcome Q :=
  price ← carbon_price_per_kg currency;
  mret (total_savings * price).

(** *** The currency selector of the "Route Optimization Summary" tab *)

(** The options of [st.selectbox("Select Currency for Cost Savings", ...)]. *)
Definition currency_options : list string := ["EUR"; "USD"; "AUD"; "SAR"].

(** [st.selectbox(label, options)]: the option at the position the user
    picked.  The widget offers the positions of its list and no other
    ([None]). *)
Definition selectbox (options : list string) (picked : nat) : option string :=
  options !! picked.

(** Lines 598 to 600 of [main]: the currency comes from the select box, the
    price per kg from [EXCHANGE_RATES], and the cost saving from their
    product with the CO2 saving. *)
Definition route_optimization_summary (picked : nat) (total_savings : Q)
  : option (outcome Q) :=
  total_cost_savings total_savings <$> selectbox currency_options picked.

(** The result of monetizing as the specification words it: an amount, or
    the rejection [UnsupportedCurrency] handed back to the caller. *)
Inductive monetize_result : Type :=
| Amount (amount : Q)
| UnsupportedCurrency.

(** What the caller of the conversion is handed back: the amount, when the
    code returns one.  A raised exception hands back nothing; [main] has no
    handler for it. *)
Definition reported (o : outcome Q) : option monetize_result :=
  match o with
  | Returned amount => Some (Amount amount)
  | Raised _ => None
  end.

Close Scope Q_scope.

(** ** Geo resolver and distance calculator *)

Open Scope R_scope.

(** Country -> city -> (latitude, longitude), in decimal degrees. *)
Definition LOCATIONS : gmap string (gmap string (R * R)) :=
  {[ "United Kingdom" := {[ "London" := (51.5074, -0.1278) ]};
     "France" := {[ "Paris" := (48.8566, 2.3522) ]};
     "USA" := {[ "New York" := (40.7128, -74.0060) ]};
     "China" := {[ "Shanghai" := (31.2304, 121.4737) ]};
     "Japan" := {[ "Tokyo" := (35.6762, 139.6503) ]};
     "Australia" := {[ "Sydney" := (-33.8688, 151.2093) ]} ]}.

Definition get_coordinates (country city : string) : R * R :=
  dict_get (dict_get LOCATIONS country ∅) city (0, 0).

(** [x == y] on floats. *)
Definition Reqb (x y : R) : bool :=
  if Req_dec_T x y then true else false.

(** [math.radians]. *)
Definition math_radians (x : R) : R := x * (PI / 180).

(** [math.sqrt]: a negative argument is a domain error. *)
Definition math_sqrt (x : R) : outcome R :=
  if Rlt_dec x 0 then Raised (ValueError "math domain error")
  else Returned (sqrt x).

(** [math.atan2(y, x)]: the angle of the point [(x, y)], in (-PI, PI]. *)
Definition math_atan2 (y x : R) : R :=
  if Rlt_dec 0 x then atan (y / x)
  else if Rlt_dec x 0 then
    if Rle_dec 0 y then atan (y / x) + PI else atan (y / x) - PI
  else if Rlt_dec 0 y then PI / 2
  else if Rlt_dec y 0 then - (PI / 2)
  else 0.

(** Nearest integer to a real, halves going to the even neighbour. *)
Definition Rround_half_even (x : R) : Z :=
  let f := Int_part x in
  if Rlt_dec (frac_part x) (1 / 2) then f
  else if Rlt_dec (1 / 2) (frac_part x) then (f + 1)%Z
  else if Z.even f then f else (f + 1)%Z.

(** [round(x, ndigits)] on a real. *)
Definition Rround (x : R) (ndigits : nat) : R :=
  IZR (Rround_half_even (x * 10 ^ ndigits)) / 10 ^ ndigits.

Definition calculate_distance (country1 city1 country2 city2 : string) : outcome R :=
  let '(lat1, lon1) := get_coordinates country1 city1 in
  let '(lat2, lon2) := get_coordinates country2 city2 in
  if Reqb lat1 0 && Reqb lon1 0 || Reqb lat2 0 && Reqb lon2 0 then
    mret 500
  else
    let R_earth := 6371 in
    let dlat := math_radians (lat2 - lat1) in
    let dlon := math_radians (lon2 - lon1) in
    let a := sin (dlat / 2) ^ 2
             + cos (math_radians lat1) * cos (math_radians lat2) * sin (dlon / 2) ^ 2 in
    sqrt_a ← math_sqrt a;
    sqrt_1a ← math_sqrt (1 - a);
    let c := 2 * math_atan2 sqrt_a sqrt_1a in
    mret (Rround (R_earth * c) 2).

Close Scope R_scope.

(** ** The vocabulary of the specification

    The definitions below follow the wording of the specification; the
    theorems relate them to the code above. *)

Open Scope Q_scope.

(** Emission factor table (kg CO2 per km per ton); a mode outside the table
    takes the Truck factor. *)
Definition factor (mode : string) : Q :=
  if decide (mode = "Truck") then 0.096
  else if decide (mode = "Train") then 0.028
  else if decide (mode = "Ship") then 0.016
  else if decide (mode = "Plane") then 0.602
  else 0.096.

Inductive scope : Type := Intercontinental | Domestic.

Inductive band : Type := Short | Medium | Long.

(** Intercontinental iff the origin country differs from the destination
    country. *)
Definition scope_of (origin dest : string) : scope :=
  if decide (origin = dest) then Domestic else Intercontinental.

(** Short below 1000 km, long from 5000 km, medium in between. *)
Definition band_of (distance_km : Q) : band :=
  if Qlt_le_dec distance_km 1000 then Short
  else if Qlt_le_dec distance_km 5000 then Medium
  else Long.

(** The hand-curated candidate strategies, in their enumeration order. *)
Definition candidate_table (s : scope) (b : band) : list combination :=
  match s, b with
  | Intercontinental, Long =>
      [ ("Ship", 0.9, Some "Train", 0.1);
        ("Ship", 0.8, Some "Truck", 0.2);
        ("Plane", 0.5, Some "Ship", 0.5) ]
  | Intercontinental, Medium =>
      [ ("Ship", 0.7, Some "Train", 0.3);
        ("Plane", 0.4, Some "Truck", 0.6);
        ("Ship", 0.6, Some "Plane", 0.4) ]
  | Intercontinental, Short =>
      [ ("Train", 0.8, Some "Truck", 0.2);
        ("Ship", 0.5, Some "Truck", 0.5);
        ("Plane", 0.3, Some "Truck", 0.7) ]
  | Domestic, Short =>
      [ ("Train", 0.9, Some "Truck", 0.1);
        ("Truck", 1.0, None, 0.0);
        ("Train", 1.0, None, 0.0) ]
  | Domestic, _ =>
      [ ("Train", 0.7, Some "Truck", 0.3);
        ("Truck", 0.6, Some "Train", 0.4);
        ("Plane", 0.3, Some "Truck", 0.7) ]
  end.

(** Segment CO2 = (distance x ratio) x weight x factor(mode). *)
Definition segment_co2 (distance_km weight_tons : Q) (mode : string) (ratio : Q) : Q :=
  distance_km * ratio * weight_tons * factor mode.

(** CO2 and distance of the second segment; a single-mode strategy has
    none. *)
Definition second_co2 (distance_km weight_tons : Q) (mode : option string)
    (ratio : Q) : Q :=
  match mode with
  | Some m => segment_co2 distance_km weight_tons m ratio
  | None => 0
  end.

Definition second_distance (distance_km : Q) (mode : option string) (ratio : Q) : Q :=
  match mode with
  | Some _ => distance_km * ratio
  | None => 0
  end.

(** Candidate total = sum of the segment CO2 values. *)
Definition strategy_total (distance_km weight_tons : Q) (c : combination) : Q :=
  let '(mode1, ratio1, mode2, ratio2) := c in
  segment_co2 distance_km weight_tons mode1 ratio1
  + second_co2 distance_km weight_tons mode2 ratio2.

(** CO2 per km and per ton of a candidate: its factors weighted by its
    ratios. *)
Definition blend (c : combination) : Q :=
  let '(mode1, ratio1, mode2, ratio2) := c in
  ratio1 * factor mode1
  + match mode2 with
    | Some m => ratio2 * factor m
    | None => 0
    end.

(** What the optimiser reports when [c] wins. *)
Definition report (distance_km weight_tons : Q) (c : combination)
  : option combination * pyfloat * option (Q * Q) * option (Q * Q) :=
  let '(mode1, ratio1, mode2, ratio2) := c in
  (Some c,
   Real (round (strategy_total distance_km weight_tons c) 2),
   Some (segment_co2 distance_km weight_tons mode1 ratio1,
         second_co2 distance_km weight_tons mode2 ratio2),
   Some (distance_km * ratio1, second_distance distance_km mode2 ratio2)).

(** [c] sits at index [i] of [l], no entry of [l] has a lower total, and
    every entry before [i] has a strictly higher one. *)
Definition first_minimum (total : combination -> Q) (l : list combination)
    (i : nat) (c : combination) : Prop :=
  l !! i = Some c /\
  (forall j c', l !! j = Some c' -> total c <= total c') /\
  (forall j c', l !! j = Some c' -> (j < i)%nat -> total c < total c').

(** A mode with an entry in [EMISSION_FACTORS]. *)
Definition known_mode (mode : string) : Prop :=
  EMISSION_FACTORS !! mode = Some (factor mode).

(** Both modes of the candidate are table entries; a second mode, when
    present, is a non-empty name. *)
Definition well_formed (c : combination) : Prop :=
  let '(mode1, _, mode2, _) := c in
  known_mode mode1 /\
  match mode2 with
  | Some m => m <> "" /\ known_mode m
  | None => True
  end.

(** The loop variables right after candidate [c] has been taken as the
    best one. *)
Definition chosen (distance_km weight_tons : Q) (c : combination) : search_state :=
  let '(mode1, ratio1, mode2, ratio2) := c in
  {| best_option := Some c;
     min_co2 := Real (strategy_total distance_km weight_tons c);
     best_breakdown := Some (segment_co2 distance_km weight_tons mode1 ratio1,
                             second_co2 distance_km weight_tons mode2 ratio2);
     best_distances := Some (distance_km * ratio1,
                             second_distance distance_km mode2 ratio2) |}.

(** Loop invariant: after the candidates [seen], either nothing was seen or
    the state holds the first minimum of [seen]. *)
Definition search_invariant (distance_km weight_tons : Q)
    (seen : list combination) (st : search_state) : Prop :=
  (seen = [] /\ st = search_init) \/
  exists i c, first_minimum (strategy_total distance_km weight_tons) seen i c /\
              st = chosen distance_km weight_tons c.

(** The modes named by a list of candidates. *)
Definition modes_of (l : list combination) : list string :=
  flat_map (fun c : combination =>
              let '(mode1, _, mode2, _) := c in
              mode1 :: match mode2 with Some m => [m] | None => [] end) l.

(** The modes of each candidate list whose single-mode emission bounds the
    optimiser's total: the list's modes except Ship on the intercontinental
    lists and Train on the intercontinental short and the domestic long
    list. *)
Definition baseline_modes (s : scope) (b : band) : list string :=
  match s, b with
  | Intercontinental, Short => ["Truck"; "Plane"]
  | Intercontinental, _ => ["Train"; "Truck"; "Plane"]
  | Domestic, Short => ["Train"; "Truck"]
  | Domestic, _ => ["Truck"; "Plane"]
  end.


Close Scope Q_scope.

Open Scope R_scope.

(** Haversine great-circle distance in km between two coordinates given in
    decimal degrees, with R = 6371 km. *)
Definition haversine_km (p1 p2 : R * R) : R :=
  let phi1 := math_radians (fst p1) in
  let phi2 := math_radians (fst p2) in
  let dphi := phi2 - phi1 in
  let dlambda := math_radians (snd p2) - math_radians (snd p1) in
  let a := Rsqr (sin (dphi / 2)) + cos phi1 * cos phi2 * Rsqr (sin (dlambda / 2)) in
  6371 * (2 * math_atan2 (sqrt a) (sqrt (1 - a))).

(** The coordinate that stands for an unresolved location. *)
Definition unresolved (p : R * R) : Prop := p = (0, 0).

Close Scope R_scope.

(** ** The decision table behind the search

    The blended factors of the candidates are constants, so the outcome of
    the search is fixed by the scope, the band and the sign of
    distance x weight. *)

Open Scope Q_scope.



(** The candidate enumerated first. *)
Definition first_listed (s : scope) (b : band) : combination :=
  match s, b with
  | Intercontinental, Long => ("Ship", 0.9, Some "Train", 0.1)
  | Intercontinental, Medium => ("Ship", 0.7, Some "Train", 0.3)
  | Intercontinental, Short => ("Train", 0.8, Some "Truck", 0.2)
  | Domestic, Short => ("Train", 0.9, Some "Truck", 0.1)
  | Domestic, _ => ("Train", 0.7, Some "Truck", 0.3)
  end.

(** The total CO2 of a report, when it is finite. *)
Definition reported_total
    (r : option combination * pyfloat * option (Q * Q) * option (Q * Q))
  : option Q :=
  match r with
  | (_, Real total, _, _) => Some total
  | (_, Inf, _, _) => None
  end.

Close Scope Q_scope.

(** ** Pages of the application

    The code of [main] and of the database helpers that calls the engine.
    Besides the exceptions of the engine, this code can raise [IndexError]
    (a list index out of range), [TypeError] (unpacking [None]) and
    [sqlite3.IntegrityError] (a duplicate primary key). *)

Inductive page_exn : Type :=
| EngineError (e : exn)
| IndexError
| TypeError
| IntegrityError.

Inductive page_outcome (A : Type) : Type :=
| Done (a : A)
| Failed (e : page_exn).

Arguments Done {A} a.
Arguments Failed {A} e.

#[global] Instance page_outcome_ret : MRet page_outcome := fun A a => Done a.

#[global] Instance page_outcome_bind : MBind page_outcome := fun A B k m =>
  match m with
  | Done a => k a
  | Failed e => Failed e
  end.


(** [l[i]] on a list. *)
Definition list_index {A : Type} (l : list A) (i : nat) : page_outcome A :=
  match l !! i with
  | Some x => Done x
  | None => Failed IndexError
  end.

(** *** Place names: [f"{city}, {country}"] and [x.split(', ')] *)

Definition format_place (city country : string) : string :=
  city +:+ ", " +:+ country.

(** [s.split(', ')], with [cur] the piece read so far: a comma followed by
    a space ends the current piece; the scan goes on after the two
    characters. *)
Fixpoint split_comma_space (cur s : string) : list string :=
  match s with
  | EmptyString => [cur]
  | String c rest =>
      match rest with
      | String c' rest' =>
          if Ascii.eqb c ","%char && Ascii.eqb c' " "%char then
            cur :: split_comma_space EmptyString rest'
          else split_comma_space (cur +:+ String c EmptyString) rest
      | EmptyString => split_comma_space (cur +:+ String c EmptyString) rest
      end
  end.

Definition str_split_comma_space (s : string) : list string :=
  split_comma_space EmptyString s.

(** The text contains the separator [", "]. *)
Fixpoint has_comma_space (s : string) : bool :=
  match s with
  | EmptyString => false
  | String c rest =>
      match rest with
      | String c' _ => Ascii.eqb c ","%char && Ascii.eqb c' " "%char || has_comma_space rest
      | EmptyString => false
      end
  end.

(** The four assignments at the head of the Reports loop, for one stored
    [(source, destination)] pair: the country is read first, then the
    city. *)
Definition parse_route (source destination : string)
  : page_outcome (string * string * string * string) :=
  source_country ← list_index (str_split_comma_space source) 1;
  source_city ← list_index (str_split_comma_space source) 0;
  dest_country ← list_index (str_split_comma_space destination) 1;
  dest_city ← list_index (str_split_comma_space destination) 0;
  mret (source_country, source_city, dest_country, dest_city).

(** *** The query of [get_suppliers] *)

Section SupplierQuery.

(** [str.lower], which the embedding does not interpret. *)
Variable str_lower : string -> string.

(** The SQL text and the parameter list that [get_suppliers] hands to
    [pd.read_sql_query]. *)
Definition get_suppliers_query (country city material : option string)
  : string * list string :=
  let query := "SELECT * FROM suppliers" in
  let params : list string := [] in
  let conditions : list string := [] in
  let '(conditions, params) :=
    if truthy country && bool_decide (country <> Some "All")
    then (conditions ++ ["country = ?"], params ++ [default "" country])
    else (conditions, params) in
  let '(conditions, params) :=
    if truthy city && bool_decide (city <> Some "All")
    then (conditions ++ ["city = ?"], params ++ [default "" city])
    else (conditions, params) in
  let '(conditions, params) :=
    if truthy material
    then (conditions ++ ["LOWER(material) LIKE ?"],
          params ++ ["%" +:+ str_lower (default "" material) +:+ "%"])
    else (conditions, params) in
  let query :=
    if bool_decide (conditions <> [])
    then query +:+ " WHERE " +:+ String.concat " AND " conditions
    else query in
  (query, params).

End SupplierQuery.

(** Number of occurrences of a character. *)
Fixpoint count_char (c : ascii) (s : string) : nat :=
  match s with
  | EmptyString => 0
  | String c' rest => (if Ascii.eqb c c' then 1 else 0) + count_char c rest
  end.

(** A filter on the country or the city is in force. *)
Definition place_filter (x : option string) : bool :=
  truthy x && bool_decide (x <> Some "All").

(** *** The SQLite database

    The two tables of [emissions.db], each as the list of its rows in
    insertion order, which is the order of [SELECT *].  [uuid.uuid4()] and
    [CURRENT_TIMESTAMP] are inputs of the operations that use them. *)

Record supplier_row : Type := {
  sup_id : string;
  supplier_name : string;
  sup_country : string;
  sup_city : string;
  material : string;
  green_score : Z;
  annual_capacity_tons : Z
}.

Record emission_row : Type := {
  em_id : string;
  em_source : string;
  em_destination : string;
  em_transport_mode : string;
  em_distance_km : Q;
  em_co2_kg : Q;
  em_weight_tons : Q;
  em_timestamp : string
}.

Record database : Type := {
  suppliers : list supplier_row;
  emissions : list emission_row
}.

(** The rows of [sample_suppliers]; [uuid4 i] is the value of the [i]-th
    call of [uuid.uuid4()]. *)
Definition sample_suppliers (uuid4 : nat -> string) : list supplier_row :=
  [ Build_supplier_row (uuid4 0%nat) "UK Steel Co" "United Kingdom" "London" "Steel" 85 50000;
    Build_supplier_row (uuid4 1%nat) "London Tech Supplies" "United Kingdom" "London" "Electronics" 70 20000;
    Build_supplier_row (uuid4 2%nat) "British Textiles Ltd" "United Kingdom" "London" "Textiles" 65 30000;
    Build_supplier_row (uuid4 3%nat) "French Steelworks" "France" "Paris" "Steel" 80 45000;
    Build_supplier_row (uuid4 4%nat) "Paris Electronics Hub" "France" "Paris" "Electronics" 75 25000;
    Build_supplier_row (uuid4 5%nat) "ChemFrance" "France" "Paris" "Chemicals" 60 40000;
    Build_supplier_row (uuid4 6%nat) "American Steel Corp" "USA" "New York" "Steel" 75 60000;
    Build_supplier_row (uuid4 7%nat) "NY Tech Innovate" "USA" "New York" "Electronics" 80 30000;
    Build_supplier_row (uuid4 8%nat) "US Textile Giants" "USA" "New York" "Textiles" 70 35000;
    Build_supplier_row (uuid4 9%nat) "China Steel Group" "China" "Shanghai" "Steel" 65 80000;
    Build_supplier_row (uuid4 10%nat) "Shanghai Electronics" "China" "Shanghai" "Electronics" 60 50000;
    Build_supplier_row (uuid4 11%nat) "EastChem Co" "China" "Shanghai" "Chemicals" 55 60000;
    Build_supplier_row (uuid4 12%nat) "Nippon Steel" "Japan" "Tokyo" "Steel" 80 55000;
    Build_supplier_row (uuid4 13%nat) "Tokyo Tech Solutions" "Japan" "Tokyo" "Electronics" 85 40000;
    Build_supplier_row (uuid4 14%nat) "Japan Textiles" "Japan" "Tokyo" "Textiles" 70 30000;
    Build_supplier_row (uuid4 15%nat) "Aussie Steelworks" "Australia" "Sydney" "Steel" 75 40000;
    Build_supplier_row (uuid4 16%nat) "Sydney Chem Supplies" "Australia" "Sydney" "Chemicals" 65 35000;
    Build_supplier_row (uuid4 17%nat) "Aus Textiles" "Australia" "Sydney" "Textiles" 70 25000 ].

(** [INSERT OR IGNORE INTO suppliers]: a row whose primary key is already in
    the table is skipped. *)
Definition insert_or_ignore (tbl : list supplier_row) (row : supplier_row)
  : list supplier_row :=
  if bool_decide (sup_id row ∈ sup_id <$> tbl) then tbl else tbl ++ [row].

(** [init_db]: the tables are created when missing (an empty list already
    stands for a missing table) and the sample suppliers are inserted. *)
Definition init_db (uuid4 : nat -> string) (db : database) : database :=
  {| suppliers := fold_left insert_or_ignore (sample_suppliers uuid4) (suppliers db);
     emissions := emissions db |}.

(** [save_emission]: a plain [INSERT], which fails on a duplicate primary
    key. *)
Definition save_emission (uuid4 now : string)
    (source destination transport_mode : string) (distance_km co2_kg weight_tons : Q)
    (db : database) : page_outcome database :=
  let emission_id := uuid4 in
  if bool_decide (emission_id ∈ em_id <$> emissions db) then Failed IntegrityError
  else
    mret {| suppliers := suppliers db;
            emissions := emissions db ++
              [ {| em_id := emission_id; em_source := source;
                   em_destination := destination;
                   em_transport_mode := transport_mode;
                   em_distance_km := distance_km; em_co2_kg := co2_kg;
                   em_weight_tons := weight_tons; em_timestamp := now |} ] |}.

(** [get_emissions]: [SELECT * FROM emissions]. *)
Definition get_emissions (db : database) : list emission_row := emissions db.


(** *** The Reports page: the loop that accumulates [total_savings] *)









(** Identifiers for the examples: ["A"], ["B"], ... *)
Definition letter_id (i : nat) : string :=
  String (Ascii.ascii_of_nat (65 + i)) EmptyString.

(** A database holding one shipment recorded by the Calculate page, for the
    examples. *)
Definition one_truck_shipment : database :=
  {| suppliers := [];
     emissions :=
       [ {| em_id := "id-1";
            em_source := format_place "Paris" "France";
            em_destination := format_place "New York" "USA";
            em_transport_mode := "Truck";
            em_distance_km := 5837.24;
            em_co2_kg := calculate_co2 "France" "Paris" "USA" "New York" "Truck" 5837.24 10;
            em_weight_tons := 10;
            em_timestamp := "2025-04-01 12:00:00" |} ] |}.

(** A database with stored data, for the examples: two suppliers, the first
    under the identifier that the next run of [init_db] draws first, and
    one recorded shipment. *)
Definition stored_database : database :=
  {| suppliers :=
       [ Build_supplier_row "A" "Old Forge" "France" "Paris" "Steel" 50 1000;
         Build_supplier_row "id-7" "Harbour Chemicals" "Australia" "Sydney"
           "Chemicals" 40 2000 ];
     emissions := emissions one_truck_shipment |}.

(** ** Binary64 arithmetic

    Python's [float] is IEEE 754 binary64.  Where a statement is about the
    rounded value itself, or about a numeric tolerance, the code is read
    over [spec_float], with the operations of the IEEE 754 specification of
    the standard library at precision 53 and exponent bound 1024.  A
    decimal literal [b64 0.9] is the binary64 value nearest to it, as in
    Python. *)

#[global] Set Warnings "-inexact-float".

Module Binary64.

Definition b64 (x : PrimFloat.float) : spec_float := Prim2SF x.

Definition mul : spec_float -> spec_float -> spec_float := SFmul prec emax.
Definition add : spec_float -> spec_float -> spec_float := SFadd prec emax.
Definition div : spec_float -> spec_float -> spec_float := SFdiv prec emax.
Definition ltb : spec_float -> spec_float -> bool := SFltb.
Definition leb : spec_float -> spec_float -> bool := SFleb.

(** [float('inf')]. *)
Definition inf : spec_float := S754_infinity false.

(** The integer [0] where the code mixes it with floats. *)
Definition zero : spec_float := S754_zero false.

(** Exact value of a finite binary64 number; [0] for the others. *)
Definition SF2Q (x : spec_float) : Q :=
  match x with
  | S754_finite s m e =>
      (if s then -1 else 1) * inject_Z (Z.pos m) * 2 ^ e
  | _ => 0
  end.

(** The binary64 number nearest to [n / 10^ndigits], for [n >= 0], with
    sign [s]. *)
Definition of_decimal (s : bool) (n : Z) (ndigits : nat) : spec_float :=
  match n with
  | Z.pos p =>
      div (S754_finite s p 0)
          (S754_finite false (Z.to_pos (10 ^ Z.of_nat ndigits)) 0)
  | _ => S754_zero s
  end.

(** [round(x, ndigits)] for [ndigits >= 0]: zeros, infinities and NaN
    round to themselves; a finite [x] goes to the decimal with [ndigits]
    places nearest to its exact value, halves to the even neighbour, and
    from there to the nearest binary64 number. *)
Definition round (x : spec_float) (ndigits : nat) : spec_float :=
  match x with
  | S754_finite s m e =>
      let scale := inject_Z (10 ^ Z.of_nat ndigits) in
      of_decimal s (round_half_even (SF2Q (S754_finite false m e) * scale))
        ndigits
  | _ => x
  end.

Definition EMISSION_FACTORS : gmap string spec_float :=
  {[ "Truck" := b64 0.096; "Train" := b64 0.028;
     "Ship" := b64 0.016; "Plane" := b64 0.602 ]}.

Definition calculate_co2 (country1 city1 country2 city2 transport_mode : string)
    (distance_km weight_tons : spec_float) : spec_float :=
  let emission_factor := dict_get EMISSION_FACTORS transport_mode (b64 0.096) in
  let co2_kg := mul (mul distance_km weight_tons) emission_factor in
  round co2_kg 2.

Definition combination : Type := string * spec_float * option string * spec_float.

Definition combinations (country1 country2 : string) (distance_km : spec_float)
  : list combination :=
  let intercontinental := bool_decide (country1 <> country2) in
  let distance_short := ltb distance_km (b64 1000) in
  let distance_medium :=
    leb (b64 1000) distance_km && ltb distance_km (b64 5000) in
  let distance_long := leb (b64 5000) distance_km in
  if intercontinental then
    if distance_long then
      [ ("Ship", b64 0.9, Some "Train", b64 0.1);
        ("Ship", b64 0.8, Some "Truck", b64 0.2);
        ("Plane", b64 0.5, Some "Ship", b64 0.5) ]
    else if distance_medium then
      [ ("Ship", b64 0.7, Some "Train", b64 0.3);
        ("Plane", b64 0.4, Some "Truck", b64 0.6);
        ("Ship", b64 0.6, Some "Plane", b64 0.4) ]
    else
      [ ("Train", b64 0.8, Some "Truck", b64 0.2);
        ("Ship", b64 0.5, Some "Truck", b64 0.5);
        ("Plane", b64 0.3, Some "Truck", b64 0.7) ]
  else
    if distance_short then
      [ ("Train", b64 0.9, Some "Truck", b64 0.1);
        ("Truck", b64 1.0, None, b64 0.0);
        ("Train", b64 1.0, None, b64 0.0) ]
    else
      [ ("Train", b64 0.7, Some "Truck", b64 0.3);
        ("Truck", b64 0.6, Some "Train", b64 0.4);
        ("Plane", b64 0.3, Some "Truck", b64 0.7) ].

Record search_state : Type := {
  best_option : option combination;
  min_co2 : spec_float;
  best_breakdown : option (spec_float * spec_float);
  best_distances : option (spec_float * spec_float)
}.

Definition search_init : search_state :=
  {| best_option := None; min_co2 := inf;
     best_breakdown := None; best_distances := None |}.

Definition search_body (distance_km weight_tons : spec_float) (st : search_state)
    (c : combination) : outcome search_state :=
  let '(mode1, ratio1, mode2, ratio2) := c in
  let dist1 := mul distance_km ratio1 in
  let dist2 := if truthy mode2 then mul distance_km ratio2 else zero in
  f1 ← subscript EMISSION_FACTORS mode1;
  let co2_1 := mul (mul dist1 weight_tons) f1 in
  co2_2 ← (if truthy mode2
           then f2 ← subscript EMISSION_FACTORS (default "" mode2);
                mret (mul (mul dist2 weight_tons) f2)
           else mret zero);
  let total_co2 := add co2_1 co2_2 in
  if ltb total_co2 (min_co2 st) then
    mret {| best_option := Some (mode1, ratio1, mode2, ratio2);
            min_co2 := total_co2;
            best_breakdown := Some (co2_1, co2_2);
            best_distances := Some (dist1, dist2) |}
  else mret st.

Definition optimize_route (country1 city1 country2 city2 : string)
    (distance_km weight_tons : spec_float)
  : outcome (option combination * spec_float
             * option (spec_float * spec_float)
             * option (spec_float * spec_float)) :=
  st ← for_each (search_body distance_km weight_tons)
         (combinations country1 country2 distance_km) search_init;
  mret (best_option st, round (min_co2 st) 2,
        best_breakdown st, best_distances st).

(** *** Vocabulary for the binary64 statements *)

(** Whether a binary64 value is a number: a zero or a finite non-zero
    value. *)
Definition is_number (x : spec_float) : bool :=
  match x with
  | S754_zero _ | S754_finite _ _ _ => true
  | _ => false
  end.

Definition sign_factor (s : bool) : Q := if s then -1 else 1.

(** A share ratio of a two-segment candidate: a positive finite value. *)
Definition is_positive (x : spec_float) : bool :=
  match x with
  | S754_finite false _ _ => true
  | _ => false
  end.

(** After [k] one-bit shifts of the mantissa [M], the record [(m, r, s)]
    holds the quotient, the last bit shifted out and whether anything
    lower was non-zero. *)
Definition shifted (M k : Z) (mrs : shr_record) : Prop :=
  exists t : Z,
    (0 <= t < 2 ^ k)%Z /\
    (2 * M = 2 ^ k * (2 * shr_m mrs + Z.b2z (shr_r mrs)) + t)%Z /\
    (shr_s mrs = true <-> 0 < t)%Z /\
    (0 <= shr_m mrs)%Z.

(** Emission factor table of the specification, in binary64; a mode
    outside the table takes the Truck factor. *)
Definition factor (mode : string) : spec_float :=
  if decide (mode = "Truck") then b64 0.096
  else if decide (mode = "Train") then b64 0.028
  else if decide (mode = "Ship") then b64 0.016
  else if decide (mode = "Plane") then b64 0.602
  else b64 0.096.

(** Segment distances of a candidate: distance x ratio, and [0] where
    there is no second segment. *)
Definition segment_distances (distance_km : spec_float) (c : combination)
  : spec_float * spec_float :=
  let '(mode1, ratio1, mode2, ratio2) := c in
  (mul distance_km ratio1,
   if truthy mode2 then mul distance_km ratio2 else zero).

(** Segment CO2 of a candidate: segment distance x weight x factor(mode). *)
Definition segment_co2 (distance_km weight_tons : spec_float) (c : combination)
  : spec_float * spec_float :=
  let '(mode1, ratio1, mode2, ratio2) := c in
  let '(dist1, dist2) := segment_distances distance_km c in
  (mul (mul dist1 weight_tons) (factor mode1),
   if truthy mode2
   then mul (mul dist2 weight_tons) (factor (default "" mode2))
   else zero).

(** The state of the search once candidate [c] has been taken. *)
Definition chosen (distance_km weight_tons : spec_float) (c : combination)
  : search_state :=
  let '(co2_1, co2_2) := segment_co2 distance_km weight_tons c in
  {| best_option := Some c;
     min_co2 := add co2_1 co2_2;
     best_breakdown := Some (co2_1, co2_2);
     best_distances := Some (segment_distances distance_km c) |}.

(** What the search needs of a candidate: its modes are keys of the factor
    table, its ratios are at most 1 and sum to [1.0] in binary64, and, with
    a second segment, both ratios are positive and their exact sum is
    within [2^-53] of 1; a single segment takes the ratio [1.0]. *)
Definition well_formed (c : combination) : Prop :=
  let '(mode1, ratio1, mode2, ratio2) := c in
  EMISSION_FACTORS !! mode1 = Some (factor mode1) /\
  add ratio1 ratio2 = b64 1.0 /\
  is_number ratio1 = true /\ (Qabs (SF2Q ratio1) <= 1)%Q /\
  is_number ratio2 = true /\ (Qabs (SF2Q ratio2) <= 1)%Q /\
  match mode2 with
  | Some mode =>
      mode <> "" /\
      EMISSION_FACTORS !! mode = Some (factor mode) /\
      is_positive ratio1 = true /\ is_positive ratio2 = true /\
      (SF2Q ratio1 + SF2Q ratio2 <= 2)%Q /\
      (Qabs (SF2Q ratio1 + SF2Q ratio2 - 1) <= 2 ^ (-53))%Q
  | None => ratio1 = b64 1.0
  end.

End Binary64.

(** * Properties *)

(** ** Order and rounding on [Q] *)

Section Rationals.
Local Open Scope Q_scope.

Lemma Qltb_lt (x y : Q) : Qltb x y = true <-> x < y.
Proof.
  unfold Qltb. rewrite Qlt_alt.
  destruct (x ?= y); intuition congruence.
Qed.

Lemma Qltb_ge (x y : Q) : Qltb x y = false <-> y <= x.
Proof.
  split; intros H.
  - apply Qnot_lt_le. intros Hlt. apply Qltb_lt in Hlt. congruence.
  - destruct (Qltb x y) eqn:E; [|reflexivity].
    apply Qltb_lt in E. exfalso. apply (Qlt_not_le _ _ E H).
Qed.

Lemma Qleb_le (x y : Q) : Qleb x y = true <-> x <= y.
Proof.
  unfold Qleb. rewrite Qle_alt.
  destruct (x ?= y); intuition congruence.
Qed.

Lemma Qleb_gt (x y : Q) : Qleb x y = false <-> y < x.
Proof.
  split; intros H.
  - apply Qnot_le_lt. intros Hle. apply Qleb_le in Hle. congruence.
  - destruct (Qleb x y) eqn:E; [|reflexivity].
    apply Qleb_le in E. exfalso. apply (Qlt_not_le _ _ H E).
Qed.

(** The floor brackets its argument. *)
Lemma Qfloor_bracket (x : Q) :
  inject_Z (Qfloor x) <= x /\ x < inject_Z (Qfloor x) + 1.
Proof.
  split; [apply Qfloor_le|].
  pose proof (Qlt_floor x) as H. rewrite inject_Z_plus in H. exact H.
Qed.

(** [round_half_even] picks the floor or its successor. *)
Lemma round_half_even_cases (x : Q) :
  (round_half_even x = Qfloor x /\ x - inject_Z (Qfloor x) <= 1 # 2) \/
  (round_half_even x = (Qfloor x + 1)%Z /\ 1 # 2 <= x - inject_Z (Qfloor x)).
Proof.
  unfold round_half_even.
  destruct (Qcompare_spec (x - inject_Z (Qfloor x)) (1 # 2)) as [E|E|E].
  - destruct (Z.even (Qfloor x)); [left|right]; split; trivial;
      rewrite E; apply Qle_refl.
  - left. split; [reflexivity|]. apply Qlt_le_weak, E.
  - right. split; [reflexivity|]. apply Qlt_le_weak, E.
Qed.

(** Rounding to the nearest integer moves a number by at most one half. *)
Lemma round_half_even_error (x : Q) :
  Qabs (inject_Z (round_half_even x) - x) <= 1 # 2.
Proof.
  destruct (Qfloor_bracket x) as [Hlo Hhi].
  apply Qabs_case; intros _;
    destruct (round_half_even_cases x) as [[-> H]|[-> H]];
    rewrite ?inject_Z_plus; change (inject_Z 1) with 1 in *; lra.
Qed.

Lemma round_half_even_comp (x y : Q) :
  x == y -> round_half_even x = round_half_even y.
Proof.
  intros E. unfold round_half_even.
  rewrite (Qfloor_comp _ _ E).
  assert (E' : x - inject_Z (Qfloor y) == y - inject_Z (Qfloor y))
    by (rewrite E; reflexivity).
  rewrite (Qcompare_comp _ _ E' (1 # 2) (1 # 2) (Qeq_refl _)).
  reflexivity.
Qed.

(** Rounding to the nearest integer is monotone. *)
Lemma round_half_even_mono (x y : Q) :
  x <= y -> (round_half_even x <= round_half_even y)%Z.
Proof.
  intros Hxy.
  pose proof (Qfloor_resp_le _ _ Hxy) as Hfl.
  destruct (Z.eq_dec (Qfloor x) (Qfloor y)) as [Heq|Hne].
  - unfold round_half_even. rewrite Heq.
    destruct (Qcompare_spec (x - inject_Z (Qfloor y)) (1 # 2)) as [E1|E1|E1];
      destruct (Qcompare_spec (y - inject_Z (Qfloor y)) (1 # 2)) as [E2|E2|E2];
      try (destruct (Z.even (Qfloor y))); try lia; exfalso; lra.
  - destruct (round_half_even_cases x) as [[-> _]|[-> _]];
      destruct (round_half_even_cases y) as [[-> _]|[-> _]]; lia.
Qed.

Lemma scale_pos (ndigits : nat) : 0 < inject_Z (10 ^ Z.of_nat ndigits).
Proof.
  replace 0 with (inject_Z 0) by reflexivity.
  rewrite <- Zlt_Qlt. apply Z.pow_pos_nonneg; lia.
Qed.

(** [round] respects equality of rationals, up to syntactic equality. *)
Lemma round_comp (x y : Q) (ndigits : nat) : x == y -> round x ndigits = round y ndigits.
Proof.
  intros E. unfold round.
  set (s := inject_Z (10 ^ Z.of_nat ndigits)).
  rewrite (round_half_even_comp (x * s) (y * s)); [reflexivity|].
  rewrite E. reflexivity.
Qed.

(** [round] is monotone. *)
Lemma round_mono (x y : Q) (ndigits : nat) :
  x <= y -> round x ndigits <= round y ndigits.
Proof.
  intros Hxy. unfold round.
  pose proof (scale_pos ndigits) as Hs.
  set (s := inject_Z (10 ^ Z.of_nat ndigits)) in *.
  apply Qmult_le_compat_r.
  - rewrite <- Zle_Qle. apply round_half_even_mono.
    apply Qmult_le_compat_r; [exact Hxy|]. apply Qlt_le_weak, Hs.
  - apply Qlt_le_weak, Qinv_lt_0_compat, Hs.
Qed.

(** Rounding to two decimals moves a number by at most 0.005. *)
Lemma round2_error (x : Q) : Qabs (round x 2 - x) <= 1 # 200.
Proof.
  unfold round. change (inject_Z (10 ^ Z.of_nat 2)) with 100.
  pose proof (round_half_even_error (x * 100)) as H.
  set (n := inject_Z (round_half_even (x * 100))) in *. clearbody n.
  apply Qabs_Qle_condition in H. apply Qabs_Qle_condition.
  assert (E : n / 100 == n * (1 # 100)) by field. rewrite E.
  destruct H as [H1 H2]. split; lra.
Qed.

(** An integer number of hundredths is left unchanged. *)
Lemma round2_hundredths (n : Z) : round (inject_Z n / 100) 2 == inject_Z n / 100.
Proof.
  unfold round. change (inject_Z (10 ^ Z.of_nat 2)) with 100.
  assert (E : inject_Z n / 100 * 100 == inject_Z n) by (field).
  rewrite (round_half_even_comp _ _ E).
  unfold round_half_even. rewrite Qfloor_Z.
  destruct (Qcompare_spec (inject_Z n - inject_Z n) (1 # 2)) as [E1|E1|E1];
    [exfalso; lra | reflexivity | exfalso; lra].
Qed.

End Rationals.

(** ** The search loop of [optimize_route] *)

Section Search.
Local Open Scope Q_scope.

Variables distance_km weight_tons : Q.

Let total := strategy_total distance_km weight_tons.

Lemma known_mode_subscript (mode : string) :
  known_mode mode -> subscript EMISSION_FACTORS mode = Returned (factor mode).
Proof. unfold known_mode, subscript. intros ->. reflexivity. Qed.

(** On a well-formed candidate the loop body raises nothing: it compares the
    candidate total with the running minimum. *)
Lemma search_body_well_formed (st : search_state) (c : combination) :
  well_formed c ->
  search_body distance_km weight_tons st c =
  Returned (if lt_float (total c) (min_co2 st)
            then chosen distance_km weight_tons c else st).
Proof.
  destruct c as [[[mode1 ratio1] mode2] ratio2]. intros [H1 H2].
  unfold search_body. rewrite (known_mode_subscript _ H1). simpl.
  destruct mode2 as [m|]; simpl.
  - destruct H2 as [Hne Hm]. rewrite bool_decide_true by exact Hne.
    rewrite (known_mode_subscript _ Hm). simpl.
    unfold total, strategy_total, segment_co2, second_co2, segment_co2.
    destruct (lt_float _ _); reflexivity.
  - unfold total, strategy_total, segment_co2, second_co2.
    destruct (lt_float _ _); reflexivity.
Qed.

(** One iteration preserves the invariant. *)
Lemma search_step (seen : list combination) (st : search_state) (c : combination) :
  search_invariant distance_km weight_tons seen st ->
  search_invariant distance_km weight_tons (seen ++ [c])
    (if lt_float (total c) (min_co2 st)
     then chosen distance_km weight_tons c else st).
Proof.
  intros [[-> ->]|(i & b & (Hi & Hle & Hlt) & ->)].
  - simpl. right. exists 0%nat, c. split; [|reflexivity].
    split; [reflexivity|]. split.
    + intros [|j] c' H; simpl in H; [|discriminate].
      injection H as <-. apply Qle_refl.
    + intros j c' _ Hj. lia.
  - assert (Hmin : min_co2 (chosen distance_km weight_tons b) = Real (total b))
      by (destruct b as [[[? ?] ?] ?]; reflexivity).
    rewrite Hmin. simpl lt_float.
    destruct (Qltb (total c) (total b)) eqn:E.
    + apply Qltb_lt in E. right. exists (length seen), c.
      split; [|reflexivity]. split; [|split].
      * rewrite lookup_app_r by lia.
        replace (length seen - length seen)%nat with 0%nat by lia. reflexivity.
      * intros j c' H. apply lookup_app_Some in H as [H|[Hj H]].
        -- apply Qlt_le_weak. eapply Qlt_le_trans; [exact E|]. eapply Hle, H.
        -- destruct (j - length seen)%nat; simpl in H; [|discriminate].
           injection H as <-. apply Qle_refl.
      * intros j c' H Hj. rewrite lookup_app_l in H by lia.
        eapply Qlt_le_trans; [exact E|]. eapply Hle, H.
    + apply Qltb_ge in E. right. exists i, b.
      split; [|reflexivity]. split; [|split].
      * apply lookup_app_l_Some, Hi.
      * intros j c' H. apply lookup_app_Some in H as [H|[Hj H]].
        -- eapply Hle, H.
        -- destruct (j - length seen)%nat; simpl in H; [|discriminate].
           injection H as <-. exact E.
      * intros j c' H Hj.
        pose proof (lookup_lt_Some _ _ _ Hi) as Hlen.
        rewrite lookup_app_l in H by lia. eapply Hlt; eassumption.
Qed.

(** The whole loop: no exception, and the invariant holds at the end. *)
Lemma search_loop (l seen : list combination) (st : search_state) :
  Forall well_formed l ->
  search_invariant distance_km weight_tons seen st ->
  exists st',
    for_each (search_body distance_km weight_tons) l st = Returned st' /\
    search_invariant distance_km weight_tons (seen ++ l) st'.
Proof.
  intros Hwf. revert seen st.
  induction Hwf as [|c l Hc Hl IH]; intros seen st Hinv.
  - exists st. rewrite app_nil_r. split; [reflexivity|exact Hinv].
  - simpl for_each. rewrite (search_body_well_formed st c Hc).
    destruct (IH (seen ++ [c]) _ (search_step seen st c Hinv)) as (st' & Hrun & Hinv').
    exists st'. split; [exact Hrun|].
    rewrite <- app_assoc in Hinv'. exact Hinv'.
Qed.

End Search.

(** ** Reference tables *)

Section Tables.
Local Open Scope Q_scope.

(** [EMISSION_FACTORS.get(mode, 0.096)] is the factor table of the
    specification, fallback included. *)
Lemma dict_get_factor (mode : string) :
  dict_get EMISSION_FACTORS mode 0.096 = factor mode.
Proof.
  unfold dict_get, factor.
  destruct (decide (mode = "Truck")) as [->|E1]; [vm_compute; reflexivity|].
  destruct (decide (mode = "Train")) as [->|E2]; [vm_compute; reflexivity|].
  destruct (decide (mode = "Ship")) as [->|E3]; [vm_compute; reflexivity|].
  destruct (decide (mode = "Plane")) as [->|E4]; [vm_compute; reflexivity|].
  unfold EMISSION_FACTORS.
  rewrite !lookup_insert_ne, lookup_singleton_ne by congruence.
  reflexivity.
Qed.

Lemma known_mode_table (mode : string) :
  mode ∈ ["Truck"; "Train"; "Ship"; "Plane"] -> known_mode mode.
Proof.
  intros H. repeat (apply elem_of_cons in H as [->|H]; [vm_compute; reflexivity|]).
  apply elem_of_nil in H. destruct H.
Qed.

Lemma factor_pos (mode : string) : 0 < factor mode.
Proof. unfold factor. repeat case_decide; reflexivity. Qed.

Lemma candidate_table_well_formed (s : scope) (b : band) :
  Forall well_formed (candidate_table s b).
Proof.
  destruct s, b; repeat constructor;
    try (intros ?; discriminate); vm_compute; reflexivity.
Qed.

(** The cascade of [optimize_route] builds the list the table gives for the
    scope and band of the call. *)
Lemma combinations_table (country1 country2 : string) (distance_km : Q) :
  combinations country1 country2 distance_km =
  candidate_table (scope_of country1 country2) (band_of distance_km).
Proof.
  unfold combinations, scope_of, band_of.
  destruct (Qlt_le_dec distance_km 1000) as [H1|H1];
    [|destruct (Qlt_le_dec distance_km 5000) as [H5|H5]].
  - assert (H5 : distance_km < 5000) by lra.
    rewrite (proj2 (Qltb_lt _ _) H1), (proj2 (Qleb_gt _ _) H5),
      (proj2 (Qleb_gt _ _) H1).
    case_decide as E; [rewrite bool_decide_false by tauto
                      |rewrite bool_decide_true by exact E]; reflexivity.
  - rewrite (proj2 (Qltb_ge _ _) H1), (proj2 (Qleb_gt _ _) H5),
      (proj2 (Qleb_le _ _) H1), (proj2 (Qltb_lt _ _) H5).
    case_decide as E; [rewrite bool_decide_false by tauto
                      |rewrite bool_decide_true by exact E]; reflexivity.
  - assert (H1' : 1000 <= distance_km) by lra.
    rewrite (proj2 (Qleb_le _ _) H5), (proj2 (Qltb_ge _ _) H1').
    case_decide as E; [rewrite bool_decide_false by tauto
                      |rewrite bool_decide_true by exact E]; reflexivity.
Qed.

(** Every candidate splits the distance completely. *)
Lemma candidate_ratios (s : scope) (b : band) (c : combination) :
  c ∈ candidate_table s b ->
  let '(_, ratio1, _, ratio2) := c in ratio1 + ratio2 == 1.
Proof.
  intros H. destruct s, b; simpl in H;
    repeat (apply elem_of_cons in H as [->|H]; [reflexivity|]);
    apply elem_of_nil in H; destruct H.
Qed.

(** A single-mode candidate gives its whole distance to the first mode. *)
Lemma candidate_single_mode (s : scope) (b : band) (mode1 : string) (ratio1 ratio2 : Q) :
  (mode1, ratio1, None, ratio2) ∈ candidate_table s b -> ratio1 == 1.
Proof.
  intros H. destruct s, b; simpl in H;
    repeat (apply elem_of_cons in H as [E|H];
            [first [discriminate E | injection E as -> -> ->; reflexivity]|]);
    apply elem_of_nil in H; destruct H.
Qed.



(** A candidate total is distance x weight x blended factor. *)
Lemma strategy_total_blend (distance_km weight_tons : Q) (c : combination) :
  strategy_total distance_km weight_tons c == distance_km * weight_tons * blend c.
Proof.
  destruct c as [[[mode1 ratio1] [m|]] ratio2];
    unfold strategy_total, blend, second_co2, segment_co2; ring.
Qed.

End Tables.

(** ** The optimiser *)

Section Optimiser.
Local Open Scope Q_scope.

Variables country1 city1 country2 city2 : string.
Variables distance_km weight_tons : Q.

(** Whatever the arguments, [optimize_route] returns normally and reports
    the first minimum of the candidate list of the call. *)
Lemma optimize_route_report :
  exists i best,
    first_minimum (strategy_total distance_km weight_tons)
      (candidate_table (scope_of country1 country2) (band_of distance_km)) i best /\
    optimize_route country1 city1 country2 city2 distance_km weight_tons =
    Returned (report distance_km weight_tons best).
Proof.
  unfold optimize_route. rewrite combinations_table.
  set (l := candidate_table _ _).
  destruct (search_loop distance_km weight_tons l [] search_init)
    as (st & Hrun & Hinv).
  - apply candidate_table_well_formed.
  - left. split; reflexivity.
  - rewrite Hrun. simpl app in Hinv.
    destruct Hinv as [[Hnil _]|(i & best & Hmin & ->)].
    + exfalso. subst l.
      destruct (scope_of country1 country2), (band_of distance_km); discriminate.
    + exists i, best. split; [exact Hmin|].
      destruct best as [[[mode1 ratio1] mode2] ratio2]. reflexivity.
Qed.

End Optimiser.



(** An exact tie: at distance 0 every candidate totals 0 and the first one
    of the list is returned. *)
Example optimize_route_tie :
  optimize_route "USA" "New York" "China" "Shanghai" 0 10 =
  Returned (report 0 10 ("Train", 0.8, Some "Truck", 0.2)%Q).
Proof. vm_compute. reflexivity. Qed.

(** Scenario B of the specification, at the haversine distance of the pair
    (11858.43 km after rounding): Ship 90% / Train 10% wins. *)
Example optimize_route_scenario_b :
  optimize_route "USA" "New York" "China" "Shanghai" 11858.43 10 =
  Returned (report 11858.43 10 ("Ship", 0.9, Some "Train", 0.1)%Q).
Proof. vm_compute. reflexivity. Qed.

Section Baselines.
Local Open Scope Q_scope.

(** The single-mode emission of a mode is distance x weight x factor,
    rounded. *)
Lemma calculate_co2_factor (country1 city1 country2 city2 mode : string)
    (distance_km weight_tons : Q) :
  calculate_co2 country1 city1 country2 city2 mode distance_km weight_tons =
  round (distance_km * weight_tons * factor mode) 2.
Proof. unfold calculate_co2. rewrite dict_get_factor. reflexivity. Qed.

(** The reported total is at most the rounded total of any candidate of the
    list. *)
Lemma reported_total_le (l : list combination) (i : nat) (best c : combination)
    (distance_km weight_tons : Q) :
  first_minimum (strategy_total distance_km weight_tons) l i best ->
  c ∈ l ->
  round (strategy_total distance_km weight_tons best) 2
  <= round (strategy_total distance_km weight_tons c) 2.
Proof.
  intros (_ & Hle & _) Hc. apply list_elem_of_lookup in Hc as [j Hj].
  apply round_mono. eapply Hle, Hj.
Qed.

End Baselines.

(** C2, as stated, fails: on the intercontinental long band the winner is
    Ship 90% / Train 10%, and Ship, a mode of the candidate set, emits less
    on its own (80 kg against 86 kg for 5000 km and 1 ton). *)
Lemma optimize_route_above_ship_baseline :
  ~ (forall (country1 city1 country2 city2 mode : string)
            (distance_km weight_tons : Q)
            (best : option combination) (total : Q)
            (breakdown distances : option (Q * Q)),
       (0 <= distance_km)%Q -> (0 < weight_tons)%Q ->
       mode ∈ modes_of (combinations country1 country2 distance_km) ->
       optimize_route country1 city1 country2 city2 distance_km weight_tons =
         Returned (best, Real total, breakdown, distances) ->
       (total <= calculate_co2 country1 city1 country2 city2 mode
                   distance_km weight_tons)%Q).
Proof.
  intros H.
  assert (Hle : (86 <= 80)%Q).
  { refine (H "USA" "New York" "China" "Shanghai" "Ship" 5000%Q 1%Q
              (Some ("Ship", 0.9, Some "Train", 0.1)%Q) 86.00%Q
              (Some (72.0000, 14.0000)%Q) (Some (4500.0, 500.0)%Q) _ _ _ _).
    - discriminate.
    - reflexivity.
    - apply list_elem_of_lookup. exists 0%nat. reflexivity.
    - vm_compute. reflexivity. }
  revert Hle. vm_compute. intros Hle. apply Hle. reflexivity.
Qed.

(** The other single-mode baselines the optimiser does not reach: Ship on
    the intercontinental medium and short lists, Train on the
    intercontinental short and the domestic long list. *)
Example optimize_route_above_other_baselines :
  optimize_route "USA" "New York" "China" "Shanghai" 2000 1
    = Returned (report 2000 1 ("Ship", 0.7, Some "Train", 0.3)%Q) /\
  (calculate_co2 "USA" "New York" "China" "Shanghai" "Ship" 2000 1
   < round (strategy_total 2000 1 ("Ship", 0.7, Some "Train", 0.3)) 2)%Q /\
  optimize_route "United Kingdom" "London" "France" "Paris" 343.56 1
    = Returned (report 343.56 1 ("Train", 0.8, Some "Truck", 0.2)%Q) /\
  (calculate_co2 "United Kingdom" "London" "France" "Paris" "Ship" 343.56 1
   < round (strategy_total 343.56 1 ("Train", 0.8, Some "Truck", 0.2)) 2)%Q /\
  (calculate_co2 "United Kingdom" "London" "France" "Paris" "Train" 343.56 1
   < round (strategy_total 343.56 1 ("Train", 0.8, Some "Truck", 0.2)) 2)%Q /\
  optimize_route "USA" "New York" "USA" "Los Angeles" 3935.75 1
    = Returned (report 3935.75 1 ("Train", 0.7, Some "Truck", 0.3)%Q) /\
  (calculate_co2 "USA" "New York" "USA" "Los Angeles" "Train" 3935.75 1
   < round (strategy_total 3935.75 1 ("Train", 0.7, Some "Truck", 0.3)) 2)%Q.
Proof. repeat split; vm_compute; reflexivity. Qed.

Section BaselineBound.
Local Open Scope Q_scope.

(** A candidate whose blended factor does not exceed the factor of [mode]
    keeps the reported total within the single-mode emission of [mode]. *)
Lemma reported_total_within (l : list combination) (i : nat) (best c : combination)
    (mode : string) (distance_km weight_tons : Q) :
  first_minimum (strategy_total distance_km weight_tons) l i best ->
  c ∈ l -> blend c <= factor mode -> 0 <= distance_km * weight_tons ->
  round (strategy_total distance_km weight_tons best) 2
  <= round (distance_km * weight_tons * factor mode) 2.
Proof.
  intros Hmin Hc Hb Hp.
  eapply Qle_trans; [eapply reported_total_le; eassumption|].
  apply round_mono. rewrite strategy_total_blend. nra.
Qed.

(** Every mode of [baseline_modes] is a mode of the candidate list and is
    matched by a candidate of the list. *)
Lemma baseline_modes_covered (s : scope) (b : band) (mode : string) :
  mode ∈ baseline_modes s b ->
  mode ∈ modes_of (candidate_table s b) /\
  exists c, c ∈ candidate_table s b /\ blend c <= factor mode.
Proof.
  intros H. destruct s, b; simpl in H;
    repeat (apply elem_of_cons in H as [->|H];
            [split;
             [apply list_elem_of_lookup;
              first [by exists 0%nat | by exists 1%nat | by exists 2%nat
                    | by exists 3%nat | by exists 4%nat | by exists 5%nat]
             |first [ eexists; split;
                      [apply list_elem_of_lookup; exists 0%nat; reflexivity
                      |vm_compute; discriminate]
                    | eexists; split;
                      [apply list_elem_of_lookup; exists 2%nat; reflexivity
                      |vm_compute; discriminate] ]]|]);
    apply elem_of_nil in H; destruct H.
Qed.

End BaselineBound.

(** C2, amended. For a non-negative distance and a positive weight, the
    total reported by [optimize_route] is at most the single-mode emission
    [calculate_co2] of every mode of the candidate set except Ship on the
    intercontinental lists and Train on the intercontinental short and the
    domestic long (1000 km and more) lists. *)
Theorem optimize_route_within_baseline
    (country1 city1 country2 city2 mode : string) (distance_km weight_tons : Q) :
  (0 <= distance_km)%Q -> (0 < weight_tons)%Q ->
  mode ∈ baseline_modes (scope_of country1 country2) (band_of distance_km) ->
  mode ∈ modes_of (combinations country1 country2 distance_km) /\
  exists best total breakdown distances,
    optimize_route country1 city1 country2 city2 distance_km weight_tons =
      Returned (Some best, Real total, breakdown, distances) /\
    (total <= calculate_co2 country1 city1 country2 city2 mode
                distance_km weight_tons)%Q.
Proof.
  intros Hd Hw Hmode.
  destruct (baseline_modes_covered _ _ _ Hmode) as (Hin & c & Hc & Hb).
  split; [rewrite combinations_table; exact Hin|].
  destruct (optimize_route_report country1 city1 country2 city2
              distance_km weight_tons) as (i & best & Hmin & Hrun).
  exists best, (round (strategy_total distance_km weight_tons best) 2).
  destruct best as [[[mode1 ratio1] mode2] ratio2] eqn:Ebest.
  do 2 eexists. split; [exact Hrun|].
  rewrite calculate_co2_factor.
  eapply reported_total_within; [exact Hmin|exact Hc|exact Hb|].
  apply Qmult_le_0_compat; [exact Hd|apply Qlt_le_weak, Hw].
Qed.

Lemma optimize_route_within_baseline_witness :
  (0 <= 343.56)%Q /\ (0 < 1)%Q /\
  ("Train" ∈ modes_of (combinations "France" "France" 343.56) /\
   exists best total breakdown distances,
     optimize_route "France" "Paris" "France" "Lyon" 343.56 1 =
       Returned (Some best, Real total, breakdown, distances) /\
     (total <= calculate_co2 "France" "Paris" "France" "Lyon" "Train" 343.56 1)%Q).
Proof.
  split; [discriminate|]. split; [reflexivity|].
  apply (optimize_route_within_baseline "France" "Paris" "France" "Lyon" "Train"
           343.56 1); [discriminate|reflexivity|].
  apply list_elem_of_lookup. exists 0%nat. reflexivity.
Defined.


Example optimize_route_zero_weight :
  optimize_route "USA" "New York" "China" "Shanghai" 11858.43 0 =
  Returned (Some ("Ship", 0.9, Some "Train", 0.1)%Q, Real 0.00,
            Some (0.000000, 0.000000)%Q, Some (10672.587, 1185.843)%Q).
Proof. vm_compute. reflexivity. Qed.

Example optimize_route_negative_distance :
  optimize_route "France" "Paris" "France" "Lyon" (-100) 1 =
  Returned (Some ("Truck", 1.0, None, 0.0)%Q, Real (-9.60),
            Some (-9.6000, 0)%Q, Some (-100.0, 0)%Q).
Proof. vm_compute. reflexivity. Qed.



(** ** The emission model *)

(** Scenario A of the specification: 343.56 km by truck, 1 ton. *)
Example calculate_co2_scenario_a :
  (calculate_co2 "United Kingdom" "London" "France" "Paris" "Truck" 343.56 1
   == 32.98)%Q.
Proof. reflexivity. Qed.

(** C8, as stated, fails: rounding to 2 decimals flattens small increases.
    By truck with 1 ton, 100.00 km and 100.01 km both give 9.60 kg; by ship
    over 1 km, 0.1 ton and 0.2 ton both give 0.00 kg. *)
Lemma calculate_co2_not_strictly_increasing :
  ~ (forall (country1 city1 country2 city2 mode : string) (weight_tons d1 d2 : Q),
       (0 < weight_tons)%Q -> (0 <= d1)%Q -> (d1 < d2)%Q ->
       (calculate_co2 country1 city1 country2 city2 mode d1 weight_tons
        < calculate_co2 country1 city1 country2 city2 mode d2 weight_tons)%Q) /\
  ~ (forall (country1 city1 country2 city2 mode : string) (distance_km w1 w2 : Q),
       (0 < distance_km)%Q -> (0 < w1)%Q -> (w1 < w2)%Q ->
       (calculate_co2 country1 city1 country2 city2 mode distance_km w1
        < calculate_co2 country1 city1 country2 city2 mode distance_km w2)%Q).
Proof.
  split; intros H.
  - assert (Hlt := H "France" "Paris" "France" "Lyon" "Truck" 1%Q 100.00%Q 100.01%Q
                     eq_refl ltac:(discriminate) eq_refl).
    vm_compute in Hlt. discriminate Hlt.
  - assert (Hlt := H "France" "Paris" "France" "Lyon" "Ship" 1%Q 0.1%Q 0.2%Q
                     eq_refl eq_refl eq_refl).
    vm_compute in Hlt. discriminate Hlt.
Qed.

(** C8, amended. [calculate_co2] is non-decreasing: for a fixed mode, a
    larger non-negative distance and a larger positive weight never give a
    smaller result (fixing the weight gives monotonicity in the distance,
    fixing the distance monotonicity in the weight). *)
Theorem calculate_co2_monotone
    (country1 city1 country2 city2 mode : string) (d1 d2 w1 w2 : Q) :
  (0 <= d1)%Q -> (d1 <= d2)%Q -> (0 < w1)%Q -> (w1 <= w2)%Q ->
  (calculate_co2 country1 city1 country2 city2 mode d1 w1
   <= calculate_co2 country1 city1 country2 city2 mode d2 w2)%Q.
Proof.
  intros Hd1 Hd Hw1 Hw. rewrite !calculate_co2_factor.
  apply round_mono. pose proof (factor_pos mode) as Hf.
  assert (H : (d1 * w1 <= d2 * w2)%Q) by nra.
  nra.
Qed.

Lemma calculate_co2_monotone_witness :
  (0 <= 100)%Q /\ (100 <= 343.56)%Q /\ (0 < 1)%Q /\ (1 <= 1)%Q /\
  (calculate_co2 "United Kingdom" "London" "France" "Paris" "Truck" 100 1
   <= calculate_co2 "United Kingdom" "London" "France" "Paris" "Truck" 343.56 1)%Q.
Proof.
  split; [discriminate|]. split; [discriminate|].
  split; [reflexivity|]. split; [discriminate|].
  apply (calculate_co2_monotone "United Kingdom" "London" "France" "Paris" "Truck"
           100 343.56 1 1); [discriminate|discriminate|reflexivity|discriminate].
Defined.

(** C10. The result of [calculate_co2] depends only on the transport mode,
    the distance and the weight: the four country and city arguments do not
    influence it. *)
Theorem calculate_co2_ignores_places
    (country1 city1 country2 city2 country1' city1' country2' city2' mode : string)
    (distance_km weight_tons : Q) :
  calculate_co2 country1 city1 country2 city2 mode distance_km weight_tons =
  calculate_co2 country1' city1' country2' city2' mode distance_km weight_tons.
Proof.
  rewrite (calculate_co2_factor country1 city1 country2 city2).
  rewrite (calculate_co2_factor country1' city1' country2' city2').
  reflexivity.
Qed.

(** ** Carbon pricing *)

(** C7, as stated, fails: for a currency outside the table, here GBP, the
    conversion hands no [UnsupportedCurrency] result back to its caller; it
    raises [KeyError], which nothing in [main] catches. *)
Lemma unsupported_currency_not_reported :
  ~ (forall (total_savings : Q) (currency : string),
       EXCHANGE_RATES !! currency = None ->
       reported (total_cost_savings total_savings currency)
       = Some UnsupportedCurrency).
Proof.
  intros H. specialize (H 100%Q "GBP" eq_refl).
  vm_compute in H. discriminate H.
Qed.

(** C7 (amended).  In [main] the currency is the option picked in a select
    box whose options are exactly the keys of [EXCHANGE_RATES], so the
    conversion always returns the CO2 saving times 65.89 / 1000 times the
    rate of that currency, and never raises.  The code has no
    [UnsupportedCurrency] outcome and no default currency: for any other
    currency the subscript [EXCHANGE_RATES[currency]] raises [KeyError]
    and no amount is returned. *)
Theorem route_optimization_summary_converts :
  (forall currency : string,
     currency ∈ currency_options <-> is_Some (EXCHANGE_RATES !! currency)) /\
  (forall (picked : nat) (total_savings : Q) (currency : string),
     selectbox currency_options picked = Some currency ->
     exists rate : Q,
       EXCHANGE_RATES !! currency = Some rate /\
       route_optimization_summary picked total_savings
       = Some (Returned (total_savings * (CARBON_PRICE_EUR_PER_TON / 1000 * rate))%Q)) /\
  (forall (picked : nat) (total_savings : Q) (e : exn),
     route_optimization_summary picked total_savings <> Some (Raised e)) /\
  (forall (total_savings : Q) (currency : string),
     currency ∉ currency_options ->
     total_cost_savings total_savings currency = Raised (KeyError currency) /\
     reported (total_cost_savings total_savings currency) = None).
Proof.
  assert (Hkeys : forall currency : string,
             currency ∈ currency_options <-> is_Some (EXCHANGE_RATES !! currency)).
  { intros currency. split.
    - intros H. repeat (apply elem_of_cons in H as [->|H]; [eexists; reflexivity|]).
      apply elem_of_nil in H. destruct H.
    - intros [rate H]. unfold EXCHANGE_RATES in H.
      destruct (decide (currency = "EUR")) as [->|E1];
        [apply list_elem_of_lookup; by exists 0%nat|].
      destruct (decide (currency = "USD")) as [->|E2];
        [apply list_elem_of_lookup; by exists 1%nat|].
      destruct (decide (currency = "AUD")) as [->|E3];
        [apply list_elem_of_lookup; by exists 2%nat|].
      destruct (decide (currency = "SAR")) as [->|E4];
        [apply list_elem_of_lookup; by exists 3%nat|].
      rewrite !lookup_insert_ne, lookup_singleton_ne in H by congruence.
      discriminate H. }
  assert (Hsel : forall (picked : nat) (total_savings : Q) (currency : string),
             selectbox currency_options picked = Some currency ->
             exists rate : Q,
               EXCHANGE_RATES !! currency = Some rate /\
               route_optimization_summary picked total_savings
               = Some (Returned (total_savings
                                 * (CARBON_PRICE_EUR_PER_TON / 1000 * rate))%Q)).
  { intros picked total_savings currency Hpick.
    assert (Hin : currency ∈ currency_options)
      by (apply list_elem_of_lookup; exists picked; exact Hpick).
    apply Hkeys in Hin. destruct Hin as [rate Hrate].
    exists rate. split; [exact Hrate|].
    unfold route_optimization_summary. rewrite Hpick. simpl.
    unfold total_cost_savings, carbon_price_per_kg, subscript.
    rewrite Hrate. reflexivity. }
  split; [exact Hkeys|]. split; [exact Hsel|]. split.
  - intros picked total_savings e H.
    destruct (selectbox currency_options picked) as [currency|] eqn:Hpick.
    + destruct (Hsel picked total_savings currency Hpick) as (rate & _ & Hrun).
      rewrite Hrun in H. discriminate H.
    + unfold route_optimization_summary in H. rewrite Hpick in H. discriminate H.
  - intros total_savings currency Hout.
    assert (Hnone : EXCHANGE_RATES !! currency = None).
    { destruct (EXCHANGE_RATES !! currency) as [rate|] eqn:E; [|reflexivity].
      exfalso. apply Hout. apply Hkeys. exists rate. exact E. }
    unfold total_cost_savings, carbon_price_per_kg, subscript.
    rewrite Hnone. split; reflexivity.
Qed.

Lemma route_optimization_summary_converts_witness :
  (exists rate : Q,
     EXCHANGE_RATES !! "USD" = Some rate /\
     route_optimization_summary 1 100
     = Some (Returned (100 * (CARBON_PRICE_EUR_PER_TON / 1000 * rate))%Q)) /\
  total_cost_savings 100 "GBP" = Raised (KeyError "GBP") /\
  reported (total_cost_savings 100 "GBP") = None.
Proof.
  destruct route_optimization_summary_converts as (_ & Hsel & _ & Hout).
  split.
  - apply (Hsel 1%nat 100%Q "USD"). reflexivity.
  - apply (Hout 100%Q "GBP").
    intros H. repeat (apply elem_of_cons in H as [H|H]; [discriminate H|]).
    apply elem_of_nil in H. exact H.
Defined.

(** Scenario C of the specification: 100 kg saved, priced in USD. *)
Example total_cost_savings_scenario_c :
  exists amount, total_cost_savings 100 "USD" = Returned amount /\
                 (amount == 100 / 1000 * 65.89 * 1.06)%Q.
Proof. eexists. split; [vm_compute; reflexivity|reflexivity]. Qed.

(** ** The distance calculator *)

Section Distance.
Local Open Scope R_scope.

(** A country of the table: its only city resolves to a coordinate that is
    not the sentinel, any other city is unresolved. *)
Ltac split_country country city k c :=
  destruct (decide (country = k)) as [->|?];
  [ rewrite ?lookup_insert_ne by congruence;
    rewrite ?lookup_insert_eq, ?lookup_singleton_eq; simpl;
    destruct (decide (city = c)) as [->|?];
    [ rewrite lookup_singleton_eq; simpl;
      split; [intros H; injection H as H _; exfalso; lra|discriminate]
    | rewrite lookup_singleton_ne by congruence; simpl; tauto ]
  | ].

Lemma Reqb_true (x y : R) : Reqb x y = true <-> x = y.
Proof. unfold Reqb. destruct (Req_dec_T x y); intuition congruence. Qed.

(** The test [lat == 0 and lon == 0] recognises the sentinel coordinate. *)
Lemma sentinel_test (lat lon : R) :
  Reqb lat 0 && Reqb lon 0 = true <-> unresolved (lat, lon).
Proof.
  unfold unresolved. rewrite andb_true_iff, !Reqb_true.
  split; [intros [-> ->]; reflexivity|intros H; injection H; auto].
Qed.

Lemma sentinel_test_false (lat lon : R) :
  Reqb lat 0 && Reqb lon 0 = false <-> ~ unresolved (lat, lon).
Proof.
  rewrite <- sentinel_test. destruct (Reqb lat 0 && Reqb lon 0); split;
    intros H; try reflexivity; try discriminate; try (intros H'; discriminate).
  exfalso. apply H. reflexivity.
Qed.

Lemma sin_half_sqr (x : R) : Rsqr (sin (x / 2)) = (1 - cos x) / 2.
Proof.
  replace x with (2 * (x / 2)) at 2 by field.
  rewrite cos_2a_sin. unfold Rsqr. field.
Qed.

(** Cauchy-Schwarz for a unit vector and a vector no longer than one. *)
Lemma unit_dot_bound (s1 c1 s2 c2 u : R) :
  s1 * s1 + c1 * c1 = 1 -> s2 * s2 + c2 * c2 = 1 -> u * u <= c2 * c2 ->
  -1 <= s1 * s2 + c1 * u <= 1.
Proof.
  intros H1 H2 Hu.
  assert (Hsq : (s1 * s2 + c1 * u) * (s1 * s2 + c1 * u) <= 1).
  { replace ((s1 * s2 + c1 * u) * (s1 * s2 + c1 * u))
      with ((s1 * s1 + c1 * c1) * (s2 * s2 + u * u)
            - (s1 * u - c1 * s2) * (s1 * u - c1 * s2)) by ring.
    rewrite H1.
    pose proof (Rle_0_sqr (s1 * u - c1 * s2)) as Hpos. unfold Rsqr in Hpos.
    lra. }
  split; nra.
Qed.

(** The haversine of the central angle lies in [0, 1], so neither square
    root of the formula leaves its domain. *)
Lemma haversine_arg_range (phi1 phi2 dlambda : R) :
  0 <= Rsqr (sin ((phi2 - phi1) / 2))
       + cos phi1 * cos phi2 * Rsqr (sin (dlambda / 2)) <= 1.
Proof.
  rewrite !sin_half_sqr, cos_minus.
  pose proof (COS_bound dlambda) as Hl.
  pose proof (sin2_cos2 phi1) as H1. pose proof (sin2_cos2 phi2) as H2.
  unfold Rsqr in H1, H2.
  assert (Hu : (cos phi2 * cos dlambda) * (cos phi2 * cos dlambda)
               <= cos phi2 * cos phi2).
  { pose proof (Rle_0_sqr (cos phi2)) as Hc. unfold Rsqr in Hc.
    assert (Hcl : cos dlambda * cos dlambda <= 1) by nra. nra. }
  pose proof (unit_dot_bound _ _ _ _ _ H1 H2 Hu) as [Hd1 Hd2].
  split; nra.
Qed.

(** The argument the code computes is the one of the formula. *)
Lemma haversine_arg_code (lat1 lon1 lat2 lon2 : R) :
  sin (math_radians (lat2 - lat1) / 2) ^ 2
  + cos (math_radians lat1) * cos (math_radians lat2)
    * sin (math_radians (lon2 - lon1) / 2) ^ 2
  = Rsqr (sin ((math_radians lat2 - math_radians lat1) / 2))
    + cos (math_radians lat1) * cos (math_radians lat2)
      * Rsqr (sin ((math_radians lon2 - math_radians lon1) / 2)).
Proof.
  replace (math_radians (lat2 - lat1))
    with (math_radians lat2 - math_radians lat1) by (unfold math_radians; ring).
  replace (math_radians (lon2 - lon1))
    with (math_radians lon2 - math_radians lon1) by (unfold math_radians; ring).
  rewrite <- !Rsqr_pow2. reflexivity.
Qed.

Lemma math_sqrt_nonneg (x : R) : 0 <= x -> math_sqrt x = Returned (sqrt x).
Proof.
  intros H. unfold math_sqrt. destruct (Rlt_dec x 0); [exfalso; lra|reflexivity].
Qed.

(** The argument is unchanged when the two endpoints are exchanged. *)
Lemma haversine_arg_sym (lat1 lon1 lat2 lon2 : R) :
  sin (math_radians (lat2 - lat1) / 2) ^ 2
  + cos (math_radians lat1) * cos (math_radians lat2)
    * sin (math_radians (lon2 - lon1) / 2) ^ 2
  = sin (math_radians (lat1 - lat2) / 2) ^ 2
    + cos (math_radians lat2) * cos (math_radians lat1)
      * sin (math_radians (lon1 - lon2) / 2) ^ 2.
Proof.
  replace (math_radians (lat1 - lat2) / 2)
    with (- (math_radians (lat2 - lat1) / 2)) by (unfold math_radians; field).
  replace (math_radians (lon1 - lon2) / 2)
    with (- (math_radians (lon2 - lon1) / 2)) by (unfold math_radians; field).
  rewrite !sin_neg. ring.
Qed.

(** No entry of [LOCATIONS] is the sentinel: a location resolves to (0, 0)
    only when its country or its city is missing from the table. *)
Lemma get_coordinates_unresolved (country city : string) :
  unresolved (get_coordinates country city) <->
  (LOCATIONS !! country) ≫= (fun cities => cities !! city) = None.
Proof.
  unfold get_coordinates, dict_get, unresolved, LOCATIONS.
  split_country country city "United Kingdom" "London".
  split_country country city "France" "Paris".
  split_country country city "USA" "New York".
  split_country country city "China" "Shanghai".
  split_country country city "Japan" "Tokyo".
  split_country country city "Australia" "Sydney".
  rewrite !lookup_insert_ne, lookup_singleton_ne by congruence. simpl.
  rewrite lookup_empty. simpl. tauto.
Qed.

End Distance.

(** C5. For every pair of locations, if either endpoint resolves to the
    sentinel coordinate (0, 0) then [calculate_distance] returns exactly
    500.0 km, whatever the other endpoint is; otherwise it returns, without
    a domain error, the haversine great-circle distance with R = 6371 km
    rounded to 2 decimals. *)
Theorem calculate_distance_fallback_or_haversine
    (country1 city1 country2 city2 : string) :
  (unresolved (get_coordinates country1 city1) \/
   unresolved (get_coordinates country2 city2) ->
   calculate_distance country1 city1 country2 city2 = Returned 500%R) /\
  (~ unresolved (get_coordinates country1 city1) ->
   ~ unresolved (get_coordinates country2 city2) ->
   calculate_distance country1 city1 country2 city2 =
   Returned (Rround (haversine_km (get_coordinates country1 city1)
                                  (get_coordinates country2 city2)) 2)).
Proof.
  unfold calculate_distance, haversine_km.
  destruct (get_coordinates country1 city1) as [lat1 lon1].
  destruct (get_coordinates country2 city2) as [lat2 lon2].
  split.
  - intros H.
    assert (E : Reqb lat1 0 && Reqb lon1 0 || Reqb lat2 0 && Reqb lon2 0 = true).
    { apply orb_true_iff. destruct H as [H|H]; [left|right];
        apply sentinel_test, H. }
    rewrite E. reflexivity.
  - intros H1 H2.
    apply sentinel_test_false in H1, H2. rewrite H1, H2. simpl orb. cbv iota.
    simpl fst. simpl snd.
    rewrite haversine_arg_code.
    pose proof (haversine_arg_range (math_radians lat1) (math_radians lat2)
                  (math_radians lon2 - math_radians lon1)) as [Hlo Hhi].
    rewrite (math_sqrt_nonneg _ Hlo).
    rewrite (math_sqrt_nonneg (1 - _)) by lra.
    reflexivity.
Qed.

Lemma calculate_distance_fallback_or_haversine_witness :
  calculate_distance "Atlantis" "Poseidonis" "France" "Paris" = Returned 500%R /\
  calculate_distance "United Kingdom" "London" "France" "Paris" =
  Returned (Rround (haversine_km (51.5074, -0.1278)%R (48.8566, 2.3522)%R) 2).
Proof.
  split.
  - apply (calculate_distance_fallback_or_haversine
             "Atlantis" "Poseidonis" "France" "Paris").
    left. reflexivity.
  - apply (calculate_distance_fallback_or_haversine
             "United Kingdom" "London" "France" "Paris").
    + change (get_coordinates "United Kingdom" "London") with (51.5074, -0.1278)%R.
      unfold unresolved. intros H. injection H as H _. lra.
    + change (get_coordinates "France" "Paris") with (48.8566, 2.3522)%R.
      unfold unresolved. intros H. injection H as H _. lra.
Defined.

(** C9. For every pair of locations A and B,
    [calculate_distance] gives the same result from A to B as from B to A,
    also when an endpoint resolves to the sentinel. *)
Theorem calculate_distance_symmetric (country1 city1 country2 city2 : string) :
  calculate_distance country1 city1 country2 city2 =
  calculate_distance country2 city2 country1 city1.
Proof.
  unfold calculate_distance.
  destruct (get_coordinates country1 city1) as [lat1 lon1].
  destruct (get_coordinates country2 city2) as [lat2 lon2].
  rewrite (orb_comm (Reqb lat2 0 && Reqb lon2 0)).
  destruct (Reqb lat1 0 && Reqb lon1 0 || Reqb lat2 0 && Reqb lon2 0);
    [reflexivity|].
  rewrite (haversine_arg_sym lat1 lon1 lat2 lon2). reflexivity.
Qed.

(** * The engine in binary64 *)

Section Binary64Facts.
Import Binary64.

(** *** Shifting and rounding of a mantissa *)

Lemma digits2_pos_size (p : positive) : digits2_pos p = Pos.size p.
Proof. induction p; simpl; congruence. Qed.

Lemma digits2_bounds (p : positive) :
  (2 ^ (Z.pos (digits2_pos p) - 1) <= Z.pos p < 2 ^ Z.pos (digits2_pos p))%Z.
Proof.
  rewrite digits2_pos_size. split.
  - pose proof (Pos.size_le p) as H.
    assert (H' : (Z.pos (2 ^ Pos.size p) <= Z.pos p~0)%Z) by exact H.
    rewrite Pos2Z.inj_pow in H'.
    replace (Z.pos (Pos.size p)) with (Z.succ (Z.pos (Pos.size p) - 1)) in H' by lia.
    rewrite Z.pow_succ_r in H' by lia. lia.
  - pose proof (Pos.size_gt p) as H.
    assert (H' : (Z.pos p < Z.pos (2 ^ Pos.size p))%Z) by exact H.
    rewrite Pos2Z.inj_pow in H'. exact H'.
Qed.

Lemma shifted_shr_1 (M k : Z) (mrs : shr_record) :
  (0 <= k)%Z -> shifted M k mrs -> shifted M (k + 1) (shr_1 mrs).
Proof.
  intros Hk (t & Ht & HM & Hs & Hm).
  destruct mrs as [m r s]. simpl in *.
  assert (Hp : (2 ^ (k + 1) = 2 * 2 ^ k)%Z) by (rewrite Z.pow_add_r by lia; lia).
  assert (Hpos : (0 < 2 ^ k)%Z) by (apply Z.pow_pos_nonneg; lia).
  exists (2 ^ k * Z.b2z r + t)%Z.
  destruct m as [|[p|p|]|p]; try lia; simpl;
    (split; [destruct r; simpl; lia|]);
    (split; [rewrite HM, Hp; destruct r; simpl; lia|]);
    (split; [|lia]);
    destruct r, s; simpl; split; intros H; try lia; try reflexivity;
    try (apply Hs; lia); try discriminate H.
  all: try (destruct Hs as [Hs _]; specialize (Hs eq_refl); lia).
Qed.

Lemma shifted_iter_pos (M : Z) (n : positive) :
  forall (k : Z) (mrs : shr_record),
    (0 <= k)%Z -> shifted M k mrs ->
    shifted M (k + Z.pos n) (SpecFloat.iter_pos shr_1 n mrs).
Proof.
  induction n as [n IH|n IH|]; intros k mrs Hk H; simpl.
  - replace (k + Z.pos n~1)%Z with (k + 1 + Z.pos n + Z.pos n)%Z by lia.
    apply IH; [lia|]. apply IH; [lia|]. apply shifted_shr_1; assumption.
  - replace (k + Z.pos n~0)%Z with (k + Z.pos n + Z.pos n)%Z by lia.
    apply IH; [lia|]. apply IH; assumption.
  - apply shifted_shr_1; assumption.
Qed.

Lemma shifted_start (M : Z) :
  (0 <= M)%Z -> shifted M 0 {| shr_m := M; shr_r := false; shr_s := false |}.
Proof.
  intros HM. exists 0%Z. simpl. repeat split; try lia; discriminate.
Qed.

(** Rounding the shifted mantissa to nearest: at most half a unit of the
    last place away. *)
Lemma shifted_round_nearest_even (M k : Z) (mrs : shr_record) :
  (0 <= k)%Z -> shifted M k mrs ->
  let m2 := round_nearest_even (shr_m mrs) (loc_of_shr_record mrs) in
  (Z.abs (2 ^ (k + 1) * m2 - 2 * M) <= 2 ^ k)%Z /\
  (shr_m mrs <= m2 <= shr_m mrs + 1)%Z.
Proof.
  intros Hk (t & Ht & HM & Hs & Hm).
  destruct mrs as [m r s]. simpl in *.
  assert (Hp : (2 ^ (k + 1) = 2 * 2 ^ k)%Z) by (rewrite Z.pow_add_r by lia; lia).
  rewrite Hp.
  destruct r, s; simpl in *.
  - destruct Hs as [Hs _]. specialize (Hs eq_refl). lia.
  - assert (t = 0%Z).
    { destruct (Z.eq_dec t 0%Z) as [E|E]; [exact E|].
      destruct Hs as [_ Hs]. assert (F : false = true) by (apply Hs; lia).
      discriminate F. }
    destruct (Z.even m); lia.
  - destruct Hs as [Hs _]. specialize (Hs eq_refl). lia.
  - assert (t = 0%Z).
    { destruct (Z.eq_dec t 0%Z) as [E|E]; [exact E|].
      destruct Hs as [_ Hs]. assert (F : false = true) by (apply Hs; lia).
      discriminate F. }
    lia.
Qed.

Lemma shr_nonpos (mrs : shr_record) (e n : Z) :
  (n <= 0)%Z -> shr mrs e n = (mrs, e).
Proof. destruct n; intros H; try reflexivity. lia. Qed.

Lemma Zdigits2_small (m : Z) :
  (0 <= m < 2 ^ 53)%Z -> (0 <= Zdigits2 m <= 53)%Z.
Proof.
  intros [H0 H1]. destruct m as [|p|p]; simpl; try lia.
  pose proof (digits2_bounds p) as [Hlo _].
  assert (Hlt : (2 ^ (Z.pos (digits2_pos p) - 1) < 2 ^ 53)%Z) by lia.
  apply Z.pow_lt_mono_r_iff in Hlt; lia.
Qed.

(** A mantissa that fits 53 bits is left alone. *)
Lemma shr_fexp_small (m E : Z) :
  (0 <= m < 2 ^ 53)%Z -> (-1074 <= E)%Z ->
  shr_fexp prec emax m E loc_Exact
  = ({| shr_m := m; shr_r := false; shr_s := false |}, E).
Proof.
  intros Hm HE. unfold shr_fexp. simpl shr_record_of_loc.
  apply shr_nonpos.
  pose proof (Zdigits2_small m Hm).
  unfold fexp, emin, prec, emax. lia.
Qed.

(** A mantissa that rounding carried to [2^53] is renormalised. *)
Lemma shr_fexp_carry (E : Z) :
  (-1074 <= E)%Z ->
  shr_fexp prec emax (2 ^ 53) E loc_Exact
  = ({| shr_m := 2 ^ 52; shr_r := false; shr_s := false |}, (E + 1)%Z).
Proof.
  intros HE. unfold shr_fexp.
  replace (fexp prec emax (Zdigits2 (2 ^ 53) + E) - E)%Z with 1%Z.
  - reflexivity.
  - change (Zdigits2 (2 ^ 53)) with 54%Z.
    unfold fexp, emin, prec, emax. lia.
Qed.

Lemma two_ne_0 : ~ (2 == 0)%Q.
Proof. discriminate. Qed.

(** Rounding the exact value [M * 2^e] to binary64: the result is a number
    [m2 * 2^(e + n)] where [n] bits were dropped and [m2] is at most half a
    unit away from [M / 2^n]. *)
Lemma binary_round_aux_nearest (s : bool) (M : positive) (e : Z) :
  let E := fexp prec emax (Z.pos (digits2_pos M) + e) in
  let n := Z.max (E - e) 0 in
  (e <= 971)%Z -> (E <= 970)%Z ->
  exists m2 : Z,
    (0 <= m2)%Z /\
    (Z.abs (2 ^ (n + 1) * m2 - 2 * Z.pos M) <= 2 ^ n)%Z /\
    is_number (binary_round_aux prec emax s (Z.pos M) e loc_Exact) = true /\
    (SF2Q (binary_round_aux prec emax s (Z.pos M) e loc_Exact)
     == sign_factor s * inject_Z m2 * 2 ^ (e + n))%Q.
Proof.
  intros E n He HE.
  assert (HEmin : (-1074 <= E)%Z) by (unfold E, fexp, emin, prec, emax; lia).
  unfold binary_round_aux.
  change (shr_fexp prec emax (Z.pos M) e loc_Exact)
    with (shr {| shr_m := Z.pos M; shr_r := false; shr_s := false |} e (E - e)).
  destruct (Z_le_gt_dec (E - e) 0) as [Hn|Hn].
  - (* nothing is dropped *)
    rewrite shr_nonpos by exact Hn. simpl shr_m. simpl loc_of_shr_record.
    simpl round_nearest_even.
    change (shr_fexp prec emax (Z.pos M) e loc_Exact)
      with (shr {| shr_m := Z.pos M; shr_r := false; shr_s := false |} e (E - e)).
    rewrite shr_nonpos by exact Hn. simpl shr_m.
    assert (Hle : (e <=? emax - prec)%Z = true)
      by (apply Z.leb_le; unfold emax, prec; lia).
    rewrite Hle. exists (Z.pos M).
    assert (n = 0%Z) as -> by (unfold n; lia).
    split; [lia|]. split; [simpl; lia|]. split; [reflexivity|].
    simpl SF2Q. rewrite Z.add_0_r. unfold sign_factor. reflexivity.
  - (* [E - e] bits are dropped *)
    assert (Hn' : n = (E - e)%Z) by (unfold n; lia).
    destruct (E - e)%Z as [|p|p] eqn:Hp; try lia.
    unfold shr.
    pose proof (shifted_iter_pos (Z.pos M) p 0
                  {| shr_m := Z.pos M; shr_r := false; shr_s := false |}
                  (Z.le_refl 0) (shifted_start (Z.pos M) ltac:(lia))) as Hsh.
    rewrite Z.add_0_l in Hsh.
    set (mrs := SpecFloat.iter_pos shr_1 p _) in *.
    pose proof (shifted_round_nearest_even (Z.pos M) (Z.pos p) mrs
                  (Pos2Z.is_nonneg p) Hsh) as Hr.
    cbv zeta in Hr. destruct Hr as [Herr Hm2].
    destruct Hsh as (t & Ht & HM & _ & Hm).
    set (m2 := round_nearest_even (shr_m mrs) (loc_of_shr_record mrs)) in *.
    replace (e + Z.pos p)%Z with E by lia.
    assert (Hm2le : (m2 <= 2 ^ 53)%Z).
    { pose proof (digits2_bounds M) as [_ Hhi].
      assert (Hd : (Z.pos (digits2_pos M) <= Z.pos p + 53)%Z)
        by (unfold E, fexp, emin, prec, emax in Hp; lia).
      assert (Hpow : (2 ^ Z.pos (digits2_pos M) <= 2 ^ (Z.pos p + 53))%Z)
        by (apply Z.pow_le_mono_r; lia).
      rewrite Z.pow_add_r in Hpow by lia.
      assert (Hpp : (0 < 2 ^ Z.pos p)%Z) by (apply Z.pow_pos_nonneg; lia).
      assert (Hb : (0 <= Z.b2z (shr_r mrs))%Z) by (destruct (shr_r mrs); simpl; lia).
      assert (Hlt : (2 ^ Z.pos p * shr_m mrs < 2 ^ Z.pos p * 2 ^ 53)%Z).
      { rewrite Z.mul_add_distr_l in HM. lia. }
      apply Z.mul_lt_mono_pos_l in Hlt; [lia|exact Hpp]. }
    exists m2. rewrite Hn'. replace (e + Z.pos p)%Z with E by lia.
    split; [lia|]. split; [exact Herr|].
    destruct (Z.eq_dec m2 (2 ^ 53)%Z) as [Hc|Hc].
    + rewrite Hc, shr_fexp_carry by exact HEmin. simpl shr_m.
      change (2 ^ 52)%Z with (Z.pos (2 ^ 52)).
      cbv iota beta.
      assert (Hle : (E + 1 <=? emax - prec)%Z = true)
        by (apply Z.leb_le; unfold emax, prec; lia).
      rewrite Hle. split; [reflexivity|].
      simpl SF2Q. rewrite Qpower_plus by exact two_ne_0.
      change (inject_Z (Z.pos (2 ^ 52))) with (2 ^ 52)%Q.
      change (inject_Z (2 ^ 53)) with (2 ^ 52 * 2 ^ 1)%Q.
      unfold sign_factor. set (a := (2 ^ E)%Q). destruct s; ring.
    + rewrite shr_fexp_small by lia. simpl shr_m.
      destruct m2 as [|q|q] eqn:Hq; try lia.
      * split; [reflexivity|]. simpl SF2Q. unfold sign_factor.
        set (a := (2 ^ E)%Q). destruct s; ring.
      * assert (Hle : (E <=? emax - prec)%Z = true)
          by (apply Z.leb_le; unfold emax, prec; lia).
        rewrite Hle. split; [reflexivity|]. simpl SF2Q.
        unfold sign_factor. reflexivity.
Qed.

Lemma pow2_pos (e : Z) : (0 < 2 ^ e)%Q.
Proof. apply Qpower_0_lt. reflexivity. Qed.

Lemma pow2_inject (n : Z) : (0 <= n)%Z -> (inject_Z (2 ^ n) == 2 ^ n)%Q.
Proof. intros Hn. apply Zpower_Qpower. exact Hn. Qed.

(** The magnitude bounds the number of digits. *)
Lemma magnitude_digits (M : positive) (e k : Z) :
  (inject_Z (Z.pos M) * 2 ^ e < 2 ^ k)%Q ->
  (Z.pos (digits2_pos M) + e <= k)%Z.
Proof.
  intros H. pose proof (digits2_bounds M) as [Hlo _].
  assert (Hq : (2 ^ (Z.pos (digits2_pos M) - 1) <= inject_Z (Z.pos M))%Q).
  { rewrite <- pow2_inject by lia. rewrite <- Zle_Qle. exact Hlo. }
  assert (Hlt : (2 ^ (Z.pos (digits2_pos M) - 1 + e) < 2 ^ k)%Q).
  { rewrite Qpower_plus by exact two_ne_0.
    eapply Qle_lt_trans; [|exact H].
    apply Qmult_le_compat_r; [exact Hq|]. apply Qlt_le_weak, pow2_pos. }
  apply Qpower_lt_compat_l_inv in Hlt; [lia|reflexivity].
Qed.

(** Rounding [M * 2^e] to binary64 stays within a relative error of
    [2^-53], or half the smallest subnormal. *)
Lemma binary_round_aux_error (s : bool) (M : positive) (e : Z) :
  (inject_Z (Z.pos M) * 2 ^ e < 2 ^ 972)%Q ->
  is_number (binary_round_aux prec emax s (Z.pos M) e loc_Exact) = true /\
  (Qabs (SF2Q (binary_round_aux prec emax s (Z.pos M) e loc_Exact)
         - sign_factor s * inject_Z (Z.pos M) * 2 ^ e)
   <= inject_Z (Z.pos M) * 2 ^ e * 2 ^ (-53) + 2 ^ (-1075))%Q.
Proof.
  intros Hmag.
  pose proof (magnitude_digits M e 972 Hmag) as Hdg.
  pose proof (digits2_bounds M) as [Hlo _].
  assert (Hd1 : (1 <= Z.pos (digits2_pos M))%Z) by lia.
  set (E := fexp prec emax (Z.pos (digits2_pos M) + e)).
  assert (HE : E = Z.max (Z.pos (digits2_pos M) + e - 53) (-1074))
    by reflexivity.
  destruct (binary_round_aux_nearest s M e ltac:(lia) ltac:(fold E; lia))
    as (m2 & Hm2 & Herr & Hnum & Hval).
  fold E in Herr, Hval. split; [exact Hnum|].
  rewrite Hval. clear Hval Hnum.
  set (u := (2 ^ e)%Q). assert (Hu : (0 < u)%Q) by apply pow2_pos.
  set (b := inject_Z (Z.pos M)).
  assert (Hb : (0 <= b)%Q) by (unfold b; rewrite <- (Zle_Qle 0); lia).
  fold b u.
  assert (Hg : (0 < 2 ^ (-1075))%Q) by apply pow2_pos.
  assert (Hc : (0 < 2 ^ (-53))%Q) by apply pow2_pos.
  set (c := (2 ^ (-53))%Q) in *. set (g := (2 ^ (-1075))%Q) in *.
  assert (Hrel : (0 <= b * u * c)%Q).
  { apply Qmult_le_0_compat; [apply Qmult_le_0_compat|]; [exact Hb|lra|lra]. }
  destruct (Z_le_gt_dec (E - e) 0) as [Hn|Hn].
  - (* exact *)
    replace (Z.max (E - e) 0) with 0%Z in * by lia.
    assert (m2 = Z.pos M) as -> by (simpl in Herr; lia).
    rewrite Z.add_0_r. fold u. fold b.
    assert (Ez : (sign_factor s * b * u - sign_factor s * b * u == 0)%Q) by ring.
    rewrite Ez. change (Qabs 0) with 0%Q. lra.
  - replace (Z.max (E - e) 0) with (E - e)%Z in * by lia.
    replace (e + (E - e))%Z with (e + (E - e - 1) + 1)%Z by lia.
    replace (E - e + 1)%Z with (Z.succ (E - e)) in Herr by lia.
    rewrite Z.pow_succ_r in Herr by lia.
    replace (E - e)%Z with (Z.succ (E - e - 1)) in Herr by lia.
    rewrite Z.pow_succ_r in Herr by lia.
    set (P := (2 ^ (E - e - 1))%Z) in *.
    assert (HP : (0 < P)%Z) by (apply Z.pow_pos_nonneg; lia).
    assert (HerrZ : (- P <= 2 * P * m2 - Z.pos M <= P)%Z) by lia.
    rewrite !Qpower_plus by exact two_ne_0. fold u.
    rewrite <- (pow2_inject (E - e - 1)) by lia. fold P.
    set (p := inject_Z P). set (a := inject_Z m2).
    assert (Hq : (- p <= 2 * p * a - b <= p)%Q).
    { assert (H1 : (Z.pos M <= 2 * P * m2 + P)%Z) by lia.
      assert (H2 : (2 * P * m2 <= P + Z.pos M)%Z) by lia.
      rewrite Zle_Qle in H1, H2.
      rewrite inject_Z_plus, !inject_Z_mult in H1, H2.
      change (inject_Z 2) with 2%Q in H1, H2.
      fold p a b in H1, H2. split; lra. }
    assert (Hp0 : (0 < p)%Q) by (unfold p; rewrite <- (Zlt_Qlt 0); exact HP).
    (* half a unit in the last place is below the bound *)
    assert (Hhalf : (u * p <= b * u * c + g)%Q).
    { assert (Eup : (u * p == 2 ^ (E - 1))%Q).
      { unfold u, p, P. rewrite pow2_inject by lia.
        rewrite <- Qpower_plus by exact two_ne_0. f_equiv. lia. }
      rewrite Eup.
      destruct (Z_le_gt_dec (Z.pos (digits2_pos M) + e - 53) (-1074)) as [Hs|Hs].
      - replace E with (-1074)%Z by lia. change (2 ^ (-1074 - 1))%Q with g. lra.
      - replace (E - 1)%Z with (Z.pos (digits2_pos M) - 1 + e + -53)%Z by lia.
        rewrite !Qpower_plus by exact two_ne_0. fold u. fold c.
        assert (Hdq : (2 ^ (Z.pos (digits2_pos M) - 1) <= b)%Q).
        { unfold b. rewrite <- pow2_inject by lia. rewrite <- Zle_Qle. exact Hlo. }
        set (h := (2 ^ (Z.pos (digits2_pos M) - 1))%Q) in *.
        assert (h * u * c <= b * u * c)%Q.
        { apply Qmult_le_compat_r; [|lra].
          apply Qmult_le_compat_r; [exact Hdq|lra]. }
        lra. }
    assert (Ediff : (sign_factor s * a * (u * p * 2 ^ 1) - sign_factor s * b * u
                     == sign_factor s * (u * (2 * p * a - b)))%Q) by ring.
    rewrite Ediff.
    assert (Habs : (Qabs (u * (2 * p * a - b)) <= u * p)%Q).
    { rewrite Qabs_Qmult, (Qabs_pos u) by lra.
      apply Qmult_le_l; [exact Hu|]. apply Qabs_Qle_condition. exact Hq. }
    rewrite Qabs_Qmult.
    assert (Es : (Qabs (sign_factor s) == 1)%Q) by (destruct s; reflexivity).
    rewrite Es, Qmult_1_l. lra.
Qed.

Lemma SF2Q_abs (s : bool) (m : positive) (e : Z) :
  (Qabs (SF2Q (S754_finite s m e)) == inject_Z (Z.pos m) * 2 ^ e)%Q.
Proof.
  simpl SF2Q. rewrite !Qabs_Qmult.
  assert (Es : (Qabs (if s then -1 else 1) == 1)%Q) by (destruct s; reflexivity).
  rewrite Es, Qmult_1_l.
  rewrite (Qabs_pos (inject_Z _)) by (rewrite <- (Zle_Qle 0); lia).
  rewrite (Qabs_pos (2 ^ e)) by apply Qlt_le_weak, pow2_pos.
  reflexivity.
Qed.

Lemma SF2Q_positive (r : spec_float) :
  is_positive r = true -> (0 < SF2Q r)%Q /\ (Qabs (SF2Q r) == SF2Q r)%Q.
Proof.
  destruct r as [| | |[|] m e]; try discriminate. intros _.
  assert (H : (0 < SF2Q (S754_finite false m e))%Q).
  { simpl. rewrite Qmult_1_l. apply Qmult_lt_0_compat; [reflexivity|apply pow2_pos]. }
  split; [exact H|]. apply Qabs_pos. apply Qlt_le_weak. exact H.
Qed.

Lemma is_positive_number (r : spec_float) :
  is_positive r = true -> is_number r = true.
Proof. destruct r as [| | |[|] m e]; try discriminate; reflexivity. Qed.

Lemma sign_factor_xorb (s1 s2 : bool) :
  (sign_factor (xorb s1 s2) == sign_factor s1 * sign_factor s2)%Q.
Proof. destruct s1, s2; reflexivity. Qed.

(** One binary64 multiplication of two numbers: below the overflow
    threshold the product is a number, within a relative error of [2^-53]
    (or half the smallest subnormal) of the exact product. *)
Lemma mul_error (x y : spec_float) :
  is_number x = true -> is_number y = true ->
  (Qabs (SF2Q x) * Qabs (SF2Q y) < 2 ^ 972)%Q ->
  is_number (mul x y) = true /\
  (Qabs (SF2Q (mul x y) - SF2Q x * SF2Q y)
   <= Qabs (SF2Q x) * Qabs (SF2Q y) * 2 ^ (-53) + 2 ^ (-1075))%Q.
Proof.
  intros Hx Hy Hmag.
  assert (Hg : (0 < 2 ^ (-1075))%Q) by apply pow2_pos.
  assert (Hc : (0 < 2 ^ (-53))%Q) by apply pow2_pos.
  assert (Hzero : forall q : Q,
             (q == 0)%Q ->
             (Qabs (0 - SF2Q x * SF2Q y)
              <= Qabs (SF2Q x) * Qabs (SF2Q y) * 2 ^ (-53) + 2 ^ (-1075))%Q ->
             True) by (intros; exact I).
  clear Hzero.
  assert (Hnn : (0 <= Qabs (SF2Q x) * Qabs (SF2Q y) * 2 ^ (-53))%Q).
  { apply Qmult_le_0_compat; [apply Qmult_le_0_compat|];
      [apply Qabs_nonneg|apply Qabs_nonneg|apply Qlt_le_weak, Hc]. }
  destruct x as [sx| | |sx mx ex]; try discriminate Hx;
    destruct y as [sy| | |sy my ey]; try discriminate Hy.
  - split; [reflexivity|]. simpl SF2Q in *.
    assert (E : (0 - 0 * 0 == 0)%Q) by ring. rewrite E.
    change (Qabs 0) with 0%Q in *. set (g := (2 ^ (-1075))%Q) in *. lra.
  - split; [reflexivity|]. simpl (SF2Q (S754_zero _)) in *. simpl (SF2Q (mul _ _)).
    set (q := SF2Q _) in *.
    assert (E : (0 - 0 * q == 0)%Q) by ring. rewrite E.
    change (Qabs 0) with 0%Q in *. set (g := (2 ^ (-1075))%Q) in *. lra.
  - split; [reflexivity|]. simpl (SF2Q (S754_zero _)) in *. simpl (SF2Q (mul _ _)).
    set (q := SF2Q _) in *.
    assert (E : (0 - q * 0 == 0)%Q) by ring. rewrite E.
    change (Qabs 0) with 0%Q in *. set (g := (2 ^ (-1075))%Q) in *. lra.
  - clear Hnn. unfold mul, SFmul.
    rewrite !SF2Q_abs in Hmag |- *.
    assert (Eprod : (inject_Z (Z.pos mx) * 2 ^ ex * (inject_Z (Z.pos my) * 2 ^ ey)
                     == inject_Z (Z.pos (mx * my)) * 2 ^ (ex + ey))%Q).
    { rewrite Qpower_plus by exact two_ne_0.
      rewrite Pos2Z.inj_mul, inject_Z_mult. ring. }
    rewrite Eprod in Hmag |- *.
    destruct (binary_round_aux_error (xorb sx sy) (mx * my) (ex + ey) Hmag)
      as [Hnum Herr].
    split; [exact Hnum|].
    assert (Eexact : (SF2Q (S754_finite sx mx ex) * SF2Q (S754_finite sy my ey)
                      == sign_factor (xorb sx sy) * inject_Z (Z.pos (mx * my))
                         * 2 ^ (ex + ey))%Q).
    { rewrite sign_factor_xorb. simpl SF2Q. unfold sign_factor.
      rewrite Qpower_plus by exact two_ne_0.
      rewrite Pos2Z.inj_mul, inject_Z_mult. ring. }
    rewrite Eexact. exact Herr.
Qed.

(** A cruder form: the product of two bounded numbers is a bounded
    number. *)
Lemma mul_number (x y : spec_float) (X Y : Q) :
  is_number x = true -> is_number y = true ->
  (Qabs (SF2Q x) <= X)%Q -> (Qabs (SF2Q y) <= Y)%Q -> (X * Y < 2 ^ 972)%Q ->
  is_number (mul x y) = true /\ (Qabs (SF2Q (mul x y)) <= 2 * (X * Y) + 1)%Q.
Proof.
  intros Hx Hy HX HY Hmag.
  pose proof (Qabs_nonneg (SF2Q x)) as Hx0.
  pose proof (Qabs_nonneg (SF2Q y)) as Hy0.
  assert (Hprod : (Qabs (SF2Q x) * Qabs (SF2Q y) <= X * Y)%Q)
    by (apply Qmult_le_compat_nonneg; split; assumption).
  destruct (mul_error x y Hx Hy) as [Hnum Herr];
    [eapply Qle_lt_trans; [exact Hprod|exact Hmag]|].
  split; [exact Hnum|].
  assert (Hc : (2 ^ (-53) <= 1)%Q) by discriminate.
  assert (Hg : (2 ^ (-1075) <= 1)%Q) by discriminate.
  assert (Hc0 : (0 < 2 ^ (-53))%Q) by apply pow2_pos.
  set (c := (2 ^ (-53))%Q) in *. set (g := (2 ^ (-1075))%Q) in *.
  set (P := (Qabs (SF2Q x) * Qabs (SF2Q y))%Q) in *.
  assert (HP0 : (0 <= P)%Q) by (apply Qmult_le_0_compat; assumption).
  assert (HPc : (P * c <= P * 1)%Q).
  { rewrite !(Qmult_comm P). apply Qmult_le_compat_r; assumption. }
  assert (Hexact : (Qabs (SF2Q x * SF2Q y) == P)%Q) by apply Qabs_Qmult.
  set (v := SF2Q (mul x y)) in *. set (q := (SF2Q x * SF2Q y)%Q) in *.
  assert (Etri : (v == (v - q) + q)%Q) by ring.
  rewrite Etri. eapply Qle_trans; [apply Qabs_triangle|]. lra.
Qed.

(** The two segment distances of a split add up to the distance, up to the
    rounding of the two products and of the two ratios. *)
Lemma split_distances_sum (d r1 r2 : spec_float) (bound : Q) :
  is_number d = true -> is_positive r1 = true -> is_positive r2 = true ->
  (Qabs (SF2Q d) <= bound)%Q -> (bound <= 2 ^ 900)%Q ->
  (SF2Q r1 + SF2Q r2 <= 2)%Q ->
  (Qabs (SF2Q r1 + SF2Q r2 - 1) <= 2 ^ (-53))%Q ->
  (Qabs (SF2Q (mul d r1) + SF2Q (mul d r2) - SF2Q d)
   <= bound * (3 * 2 ^ (-53)) + 2 ^ (-1074))%Q.
Proof.
  intros Hd Hr1 Hr2 Hb Hb900 Hsum Hone.
  destruct (SF2Q_positive r1 Hr1) as [Hp1 Ea1].
  destruct (SF2Q_positive r2 Hr2) as [Hp2 Ea2].
  assert (Ha : (0 <= Qabs (SF2Q d))%Q) by apply Qabs_nonneg.
  assert (H900 : (2 ^ 900 * 2 < 2 ^ 972)%Q) by reflexivity.
  assert (Hm1 : (Qabs (SF2Q d) * Qabs (SF2Q r1) < 2 ^ 972)%Q).
  { rewrite Ea1. eapply Qle_lt_trans; [|exact H900].
    apply Qmult_le_compat_nonneg; split; lra. }
  assert (Hm2 : (Qabs (SF2Q d) * Qabs (SF2Q r2) < 2 ^ 972)%Q).
  { rewrite Ea2. eapply Qle_lt_trans; [|exact H900].
    apply Qmult_le_compat_nonneg; split; lra. }
  destruct (mul_error d r1 Hd (is_positive_number r1 Hr1) Hm1) as [_ He1].
  destruct (mul_error d r2 Hd (is_positive_number r2 Hr2) Hm2) as [_ He2].
  rewrite Ea1 in He1. rewrite Ea2 in He2.
  assert (Hc : (0 < 2 ^ (-53))%Q) by apply pow2_pos.
  assert (Eg : (2 ^ (-1074) == 2 ^ (-1075) + 2 ^ (-1075))%Q) by reflexivity.
  rewrite Eg. clear Eg H900 Hm1 Hm2 Hb900.
  set (A := Qabs (SF2Q d)) in *. set (x1 := SF2Q r1) in *. set (x2 := SF2Q r2) in *.
  set (c := (2 ^ (-53))%Q) in *. set (g := (2 ^ (-1075))%Q) in *.
  set (v1 := SF2Q (mul d r1)) in *. set (v2 := SF2Q (mul d r2)) in *.
  assert (Esplit : (v1 + v2 - SF2Q d
                    == (v1 - SF2Q d * x1) + (v2 - SF2Q d * x2)
                       + SF2Q d * (x1 + x2 - 1))%Q) by ring.
  rewrite Esplit.
  eapply Qle_trans; [apply Qabs_triangle|].
  eapply Qle_trans; [apply Qplus_le_compat; [apply Qabs_triangle|apply Qle_refl]|].
  rewrite (Qabs_Qmult (SF2Q d)). fold A.
  assert (H3 : (A * Qabs (x1 + x2 - 1) <= A * c)%Q).
  { rewrite !(Qmult_comm A). apply Qmult_le_compat_r; [exact Hone|exact Ha]. }
  assert (H4 : (A * x1 * c + A * x2 * c <= A * (2 * c))%Q).
  { assert (E4 : (A * x1 * c + A * x2 * c == A * ((x1 + x2) * c))%Q) by ring.
    rewrite E4. rewrite !(Qmult_comm A). apply Qmult_le_compat_r; [|exact Ha].
    apply Qmult_le_compat_r; lra. }
  assert (H5 : (A * (3 * c) <= bound * (3 * c))%Q).
  { apply Qmult_le_compat_r; lra. }
  lra.
Qed.

(** A single segment carries the whole distance. *)
Lemma single_distance_sum (d : spec_float) (bound : Q) :
  is_number d = true ->
  (Qabs (SF2Q d) <= bound)%Q -> (bound <= 2 ^ 900)%Q ->
  (Qabs (SF2Q (mul d (b64 1.0)) + SF2Q zero - SF2Q d)
   <= bound * (3 * 2 ^ (-53)) + 2 ^ (-1074))%Q.
Proof.
  intros Hd Hb Hb900.
  assert (Ha : (0 <= Qabs (SF2Q d))%Q) by apply Qabs_nonneg.
  assert (E1 : (SF2Q (b64 1.0) == 1)%Q) by reflexivity.
  assert (Ea1 : (Qabs (SF2Q (b64 1.0)) == 1)%Q) by reflexivity.
  assert (H900 : (2 ^ 900 * 1 < 2 ^ 972)%Q) by reflexivity.
  assert (Hm1 : (Qabs (SF2Q d) * Qabs (SF2Q (b64 1.0)) < 2 ^ 972)%Q).
  { rewrite Ea1. eapply Qle_lt_trans; [|exact H900].
    apply Qmult_le_compat_r; lra. }
  destruct (mul_error d (b64 1.0) Hd eq_refl Hm1) as [_ He1].
  rewrite Ea1, E1 in He1.
  assert (Hc : (0 < 2 ^ (-53))%Q) by apply pow2_pos.
  assert (Hg : (0 < 2 ^ (-1075))%Q) by apply pow2_pos.
  assert (Eg : (2 ^ (-1074) == 2 ^ (-1075) + 2 ^ (-1075))%Q) by reflexivity.
  rewrite Eg. clear Eg H900 Hm1 Hb900.
  change (SF2Q zero) with 0%Q.
  set (A := Qabs (SF2Q d)) in *.
  set (c := (2 ^ (-53))%Q) in *. set (g := (2 ^ (-1075))%Q) in *.
  set (v1 := SF2Q (mul d (b64 1.0))) in *.
  assert (Esplit : (v1 + 0 - SF2Q d == v1 - SF2Q d * 1)%Q) by ring.
  rewrite Esplit.
  assert (H5 : (A * (3 * c) <= bound * (3 * c))%Q).
  { apply Qmult_le_compat_r; lra. }
  assert (H6 : (A * 1 * c <= A * (3 * c))%Q).
  { assert (E6 : (A * 1 * c == A * (1 * c))%Q) by ring. rewrite E6.
    rewrite !(Qmult_comm A). apply Qmult_le_compat_r; lra. }
  lra.
Qed.

(** Aligning a mantissa to a smaller exponent keeps the value. *)
Lemma shl_align_value (mx : positive) (ex ex' : Z) :
  (inject_Z (Z.pos (fst (shl_align mx ex ex'))) * 2 ^ snd (shl_align mx ex ex')
   == inject_Z (Z.pos mx) * 2 ^ ex)%Q.
Proof.
  unfold shl_align. destruct (ex' - ex)%Z as [|p|p] eqn:Hp; simpl fst; simpl snd;
    try reflexivity.
  change (Pos.iter xO mx p) with (shift_pos p mx).
  rewrite shift_pos_correct, Zpower_pos_nat, Zpower_nat_Z, positive_nat_Z.
  rewrite inject_Z_mult, pow2_inject by lia.
  replace ex with (Z.pos p + ex')%Z by lia.
  rewrite Qpower_plus by exact two_ne_0. ring.
Qed.

Lemma shl_align_exponent (mx : positive) (ex ex' : Z) :
  (ex' <= ex)%Z -> snd (shl_align mx ex ex') = ex'.
Proof.
  intros H. unfold shl_align.
  destruct (ex' - ex)%Z as [|p|p] eqn:Hp; simpl; lia.
Qed.

(** Rounding an exact value below the overflow threshold gives a number. *)
Lemma binary_round_number (s : bool) (m : positive) (e : Z) :
  (inject_Z (Z.pos m) * 2 ^ e < 2 ^ 972)%Q ->
  is_number (binary_round prec emax s m e) = true.
Proof.
  intros H. unfold binary_round.
  pose proof (shl_align_value m e (fexp prec emax (Z.pos (digits2_pos m) + e)))
    as Hv.
  destruct (shl_align m e _) as [mz ez]. simpl in Hv.
  apply binary_round_aux_error. rewrite Hv. exact H.
Qed.

(** The sum of two bounded numbers is a number. *)
Lemma add_number (x y : spec_float) :
  is_number x = true -> is_number y = true ->
  (Qabs (SF2Q x) + Qabs (SF2Q y) < 2 ^ 972)%Q ->
  is_number (add x y) = true.
Proof.
  intros Hx Hy Hmag.
  destruct x as [sx| | |sx mx ex]; try discriminate Hx;
    destruct y as [sy| | |sy my ey]; try discriminate Hy;
    try reflexivity.
  - destruct sx, sy; reflexivity.
  - rewrite !SF2Q_abs in Hmag. unfold add, SFadd.
    set (ez := Z.min ex ey).
    pose proof (shl_align_value mx ex ez) as Hvx.
    pose proof (shl_align_value my ey ez) as Hvy.
    rewrite (shl_align_exponent mx ex ez) in Hvx by (unfold ez; lia).
    rewrite (shl_align_exponent my ey ez) in Hvy by (unfold ez; lia).
    set (ax := fst (shl_align mx ex ez)) in *.
    set (ay := fst (shl_align my ey ez)) in *.
    rewrite <- Hvx, <- Hvy in Hmag.
    assert (Hu : (0 < 2 ^ ez)%Q) by apply pow2_pos.
    set (u := (2 ^ ez)%Q) in *.
    assert (Hz : forall z : positive,
               (Z.pos z <= Z.pos ax + Z.pos ay)%Z ->
               (inject_Z (Z.pos z) * u < 2 ^ 972)%Q).
    { intros z Hzle. eapply Qle_lt_trans; [|exact Hmag].
      rewrite <- Qmult_plus_distr_l. apply Qmult_le_compat_r; [|lra].
      rewrite <- inject_Z_plus, <- Zle_Qle. exact Hzle. }
    destruct (cond_Zopp sx (Z.pos ax) + cond_Zopp sy (Z.pos ay))%Z as [|z|z] eqn:Hsum;
      simpl binary_normalize.
    + reflexivity.
    + apply binary_round_number. apply Hz.
      destruct sx, sy; simpl in Hsum; lia.
    + apply binary_round_number. apply Hz.
      destruct sx, sy; simpl in Hsum; lia.
Qed.

(** Every number is below [float('inf')]. *)
Lemma ltb_inf (x : spec_float) : is_number x = true -> ltb x inf = true.
Proof. destruct x as [s| | |s m e]; try discriminate; reflexivity. Qed.

(** *** The search loop in binary64 *)

Lemma factor_number (mode : string) :
  is_number (factor mode) = true /\ (Qabs (SF2Q (factor mode)) <= 1)%Q.
Proof.
  unfold factor.
  repeat (destruct (decide _) as [_|_]; [split; [reflexivity|discriminate]|]).
  split; [reflexivity|discriminate].
Qed.

Lemma dict_get_factor_binary64 (mode : string) :
  dict_get EMISSION_FACTORS mode (b64 0.096) = factor mode.
Proof.
  unfold factor, dict_get, EMISSION_FACTORS.
  destruct (decide (mode = "Truck")) as [->|H1]; [reflexivity|].
  destruct (decide (mode = "Train")) as [->|H2]; [reflexivity|].
  destruct (decide (mode = "Ship")) as [->|H3]; [reflexivity|].
  destruct (decide (mode = "Plane")) as [->|H4]; [reflexivity|].
  rewrite !lookup_insert_ne, lookup_singleton_ne by congruence. reflexivity.
Qed.

Ltac well_formed_candidate :=
  unfold well_formed;
  repeat match goal with
         | |- _ /\ _ => split
         | |- _ = _ => reflexivity
         | |- _ <> _ => discriminate
         | |- (_ <= _)%Q => apply Qle_bool_imp_le; vm_compute; reflexivity
         end.

Lemma combinations_well_formed (country1 country2 : string) (distance_km : spec_float) :
  Forall well_formed (combinations country1 country2 distance_km) /\
  combinations country1 country2 distance_km <> [].
Proof.
  unfold combinations.
  destruct (bool_decide (country1 <> country2));
    destruct (leb (b64 5000) distance_km);
    destruct (leb (b64 1000) distance_km && ltb distance_km (b64 5000));
    destruct (ltb distance_km (b64 1000));
    (split; [repeat constructor; well_formed_candidate|discriminate]).
Qed.

Lemma search_body_chosen (distance_km weight_tons : spec_float)
    (st : search_state) (c : combination) :
  well_formed c ->
  search_body distance_km weight_tons st c =
    Returned (if ltb (min_co2 (chosen distance_km weight_tons c)) (min_co2 st)
              then chosen distance_km weight_tons c else st).
Proof.
  destruct c as [[[mode1 ratio1] mode2] ratio2].
  intros (H1 & _ & _ & _ & _ & _ & H2).
  unfold search_body, subscript, chosen, segment_co2, segment_distances.
  rewrite H1.
  destruct mode2 as [mode|].
  - destruct H2 as (Hne & Hm & _).
    assert (Ht : truthy (Some mode) = true) by (apply bool_decide_eq_true; exact Hne).
    rewrite Ht. simpl default. rewrite Hm.
    unfold mbind, outcome_bind, mret, outcome_ret. simpl min_co2.
    destruct (ltb _ _); reflexivity.
  - simpl truthy. unfold mbind, outcome_bind, mret, outcome_ret. simpl min_co2.
    destruct (ltb _ _); reflexivity.
Qed.

Lemma search_loop_chosen (distance_km weight_tons : spec_float) (l : list combination) :
  Forall well_formed l ->
  forall st : search_state,
  exists st' : search_state,
    for_each (search_body distance_km weight_tons) l st = Returned st' /\
    (st' = st \/ exists c, c ∈ l /\ st' = chosen distance_km weight_tons c).
Proof.
  induction 1 as [|c l Hc Hl IH]; intros st.
  - exists st. split; [reflexivity|left; reflexivity].
  - simpl. rewrite (search_body_chosen _ _ _ _ Hc).
    destruct (IH (if ltb (min_co2 (chosen distance_km weight_tons c)) (min_co2 st)
                  then chosen distance_km weight_tons c else st))
      as (st' & Hrun & Hst').
    exists st'. split; [exact Hrun|].
    destruct Hst' as [->|(c' & Hin & ->)].
    + destruct (ltb _ _); [right; exists c; split; [left|reflexivity]|left; reflexivity].
    + right. exists c'. split; [right; exact Hin|reflexivity].
Qed.

(** Within a billion kilometres and a billion tons no candidate total
    overflows. *)
Lemma chosen_total_number (distance_km weight_tons : spec_float) (c : combination) :
  well_formed c ->
  is_number distance_km = true -> is_number weight_tons = true ->
  (Qabs (SF2Q distance_km) <= 1000000000)%Q ->
  (Qabs (SF2Q weight_tons) <= 1000000000)%Q ->
  is_number (min_co2 (chosen distance_km weight_tons c)) = true.
Proof.
  destruct c as [[[mode1 ratio1] mode2] ratio2].
  intros (_ & _ & Hn1 & Hr1 & Hn2 & Hr2 & _) Hd Hw Hdb Hwb.
  assert (Hseg : forall ratio mode,
             is_number ratio = true -> (Qabs (SF2Q ratio) <= 1)%Q ->
             is_number (mul (mul (mul distance_km ratio) weight_tons) (factor mode))
               = true /\
             (Qabs (SF2Q (mul (mul (mul distance_km ratio) weight_tons) (factor mode)))
              <= 2 * ((2 * ((2 * (1000000000 * 1) + 1) * 1000000000) + 1) * 1) + 1)%Q).
  { intros ratio mode Hn Hr.
    destruct (mul_number distance_km ratio _ _ Hd Hn Hdb Hr) as [N1 B1];
      [reflexivity|].
    destruct (mul_number _ weight_tons _ _ N1 Hw B1 Hwb) as [N2 B2];
      [reflexivity|].
    destruct (factor_number mode) as [Nf Bf].
    apply (mul_number _ (factor mode) _ _ N2 Nf B2 Bf). reflexivity. }
  unfold chosen, segment_co2, segment_distances. simpl min_co2.
  destruct (Hseg ratio1 mode1 Hn1 Hr1) as [N1 B1].
  destruct (truthy mode2).
  - destruct (Hseg ratio2 (default "" mode2) Hn2 Hr2) as [N2 B2].
    apply add_number; [exact N1|exact N2|].
    eapply Qle_lt_trans; [apply Qplus_le_compat; [exact B1|exact B2]|reflexivity].
  - apply add_number; [exact N1|reflexivity|].
    change (Qabs (SF2Q zero)) with 0%Q.
    eapply Qle_lt_trans; [apply Qplus_le_compat; [exact B1|apply Qle_refl]|reflexivity].
Qed.

(** The winner's segment distances add up to the distance. *)
Lemma chosen_distances_sum (distance_km : spec_float) (c : combination) :
  well_formed c -> is_number distance_km = true ->
  (Qabs (SF2Q distance_km) <= 1000000000)%Q ->
  (Qabs (SF2Q (fst (segment_distances distance_km c))
         + SF2Q (snd (segment_distances distance_km c)) - SF2Q distance_km)
   <= 1 # 1000000)%Q.
Proof.
  destruct c as [[[mode1 ratio1] mode2] ratio2].
  intros (_ & _ & _ & _ & _ & _ & H2) Hd Hdb.
  assert (Hnum : (1000000000 * (3 * 2 ^ (-53)) + 2 ^ (-1074) <= 1 # 1000000)%Q)
    by (apply Qle_bool_imp_le; vm_compute; reflexivity).
  assert (Hb : (1000000000 <= 2 ^ 900)%Q)
    by (apply Qle_bool_imp_le; vm_compute; reflexivity).
  eapply Qle_trans; [|exact Hnum].
  unfold segment_distances. simpl fst. simpl snd.
  destruct mode2 as [mode|].
  - destruct H2 as (Hne & _ & Hp1 & Hp2 & Hsum & Hone).
    assert (Ht : truthy (Some mode) = true) by (apply bool_decide_eq_true; exact Hne).
    rewrite Ht. apply split_distances_sum; assumption.
  - rewrite H2. simpl truthy. cbv iota. apply single_distance_sum; assumption.
Qed.

(** The search ends on a candidate of the list as soon as the first total
    is a number. *)
Lemma optimize_route_chosen (country1 city1 country2 city2 : string)
    (distance_km weight_tons : spec_float) :
  is_number distance_km = true -> is_number weight_tons = true ->
  (Qabs (SF2Q distance_km) <= 1000000000)%Q ->
  (Qabs (SF2Q weight_tons) <= 1000000000)%Q ->
  exists c : combination,
    c ∈ combinations country1 country2 distance_km /\ well_formed c /\
    for_each (search_body distance_km weight_tons)
      (combinations country1 country2 distance_km) search_init
    = Returned (chosen distance_km weight_tons c).
Proof.
  intros Hd Hw Hdb Hwb.
  destruct (combinations_well_formed country1 country2 distance_km) as [Hwf Hne].
  destruct (combinations country1 country2 distance_km) as [|c l]; [congruence|].
  inversion Hwf as [|? ? Hc Hl]; subst.
  simpl for_each. rewrite (search_body_chosen _ _ _ _ Hc).
  change (min_co2 search_init) with inf.
  rewrite (ltb_inf _ (chosen_total_number _ _ _ Hc Hd Hw Hdb Hwb)).
  destruct (search_loop_chosen distance_km weight_tons l Hl
              (chosen distance_km weight_tons c)) as (st' & Hrun & Hst').
  rewrite Hrun.
  destruct Hst' as [->|(c' & Hin & ->)].
  - exists c. split; [left|split; [exact Hc|reflexivity]].
  - exists c'. split; [right; exact Hin|split; [|reflexivity]].
    rewrite Forall_forall in Hl. apply Hl. exact Hin.
Qed.


(** *** The emission model in binary64 *)

Lemma round_half_even_nonneg (x : Q) : (0 <= x)%Q -> (0 <= round_half_even x)%Z.
Proof.
  intros H. change 0%Z with (round_half_even 0).
  apply round_half_even_mono. exact H.
Qed.

Lemma SF2Q_magnitude_nonneg (m : positive) (e : Z) :
  (0 <= SF2Q (S754_finite false m e))%Q.
Proof.
  simpl. rewrite Qmult_1_l. apply Qmult_le_0_compat.
  - rewrite <- (Zle_Qle 0). lia.
  - apply Qlt_le_weak, pow2_pos.
Qed.

(** [round(x, 2)] of a finite value: the binary64 image of a whole number
    of hundredths at most 0.005 away from the exact value of [x]. *)
Lemma round_hundredths (s : bool) (m : positive) (e : Z) :
  exists n : Z,
    (0 <= n)%Z /\
    (Qabs (inject_Z n / 100 - SF2Q (S754_finite false m e)) <= 1 # 200)%Q /\
    round (S754_finite s m e) 2 = of_decimal s n 2.
Proof.
  exists (round_half_even (SF2Q (S754_finite false m e) * 100)).
  split; [|split; [|reflexivity]].
  - apply round_half_even_nonneg.
    apply Qmult_le_0_compat; [apply SF2Q_magnitude_nonneg|discriminate].
  - pose proof (round_half_even_error (SF2Q (S754_finite false m e) * 100)) as H.
    set (x := SF2Q (S754_finite false m e)) in *.
    set (n := inject_Z (round_half_even (x * 100))) in *. clearbody n.
    apply Qabs_Qle_condition in H. apply Qabs_Qle_condition.
    assert (E : (n / 100 == n * (1 # 100))%Q) by field. rewrite E.
    split; lra.
Qed.


End Binary64Facts.

(** ** Segment conservation *)

(** C6 (amended).  In binary64, for a distance and a weight of at most a
    billion (km, tons) in absolute value, [optimize_route] returns a
    candidate of its list; the ratios of every candidate of the list sum to
    [1.0]; the winner's segment distances are the distance times its
    ratios (and [0] for a missing second segment), and they sum to the
    distance within 1e-6 km; its segment CO2 values are segment distance x
    weight x factor, and the reported total is exactly
    [round(co2_1 + co2_2, 2)]. *)
Theorem optimize_route_binary64_segments
    (country1 city1 country2 city2 : string)
    (distance_km weight_tons : spec_float) :
  Binary64.is_number distance_km = true ->
  Binary64.is_number weight_tons = true ->
  (Qabs (Binary64.SF2Q distance_km) <= 1000000000)%Q ->
  (Qabs (Binary64.SF2Q weight_tons) <= 1000000000)%Q ->
  (forall mode1 ratio1 mode2 ratio2,
     (mode1, ratio1, mode2, ratio2)
       ∈ Binary64.combinations country1 country2 distance_km ->
     Binary64.add ratio1 ratio2 = Binary64.b64 1.0) /\
  exists mode1 ratio1 mode2 ratio2 dist1 dist2 co2_1 co2_2,
    (mode1, ratio1, mode2, ratio2)
      ∈ Binary64.combinations country1 country2 distance_km /\
    Binary64.optimize_route country1 city1 country2 city2 distance_km weight_tons
    = Returned (Some (mode1, ratio1, mode2, ratio2),
                Binary64.round (Binary64.add co2_1 co2_2) 2,
                Some (co2_1, co2_2), Some (dist1, dist2)) /\
    dist1 = Binary64.mul distance_km ratio1 /\
    dist2 = (if truthy mode2 then Binary64.mul distance_km ratio2
             else Binary64.zero) /\
    co2_1 = Binary64.mul (Binary64.mul dist1 weight_tons) (Binary64.factor mode1) /\
    co2_2 = (if truthy mode2
             then Binary64.mul (Binary64.mul dist2 weight_tons)
                    (Binary64.factor (default "" mode2))
             else Binary64.zero) /\
    (Qabs (Binary64.SF2Q dist1 + Binary64.SF2Q dist2 - Binary64.SF2Q distance_km)
     <= 1 # 1000000)%Q.
Proof.
  intros Hd Hw Hdb Hwb. split.
  - intros mode1 ratio1 mode2 ratio2 Hin.
    destruct (combinations_well_formed country1 country2 distance_km) as [Hwf _].
    rewrite Forall_forall in Hwf. apply Hwf in Hin.
    destruct Hin as (_ & Hsum & _). exact Hsum.
  - destruct (optimize_route_chosen country1 city1 country2 city2
                distance_km weight_tons Hd Hw Hdb Hwb) as (c & Hin & Hc & Hrun).
    pose proof (chosen_distances_sum distance_km c Hc Hd Hdb) as Hsum.
    destruct c as [[[mode1 ratio1] mode2] ratio2].
    exists mode1, ratio1, mode2, ratio2. do 4 eexists.
    split; [exact Hin|].
    split; [unfold Binary64.optimize_route; rewrite Hrun; reflexivity|].
    repeat (split; [reflexivity|]). exact Hsum.
Qed.

Lemma optimize_route_binary64_segments_witness :
  exists mode1 ratio1 mode2 ratio2 dist1 dist2 co2_1 co2_2,
    Binary64.optimize_route "USA" "New York" "China" "Shanghai"
      (Binary64.b64 11858.43) (Binary64.b64 25)
    = Returned (Some (mode1, ratio1, mode2, ratio2),
                Binary64.round (Binary64.add co2_1 co2_2) 2,
                Some (co2_1, co2_2), Some (dist1, dist2)) /\
    (Qabs (Binary64.SF2Q dist1 + Binary64.SF2Q dist2
           - Binary64.SF2Q (Binary64.b64 11858.43))
     <= 1 # 1000000)%Q.
Proof.
  destruct (optimize_route_binary64_segments "USA" "New York" "China" "Shanghai"
              (Binary64.b64 11858.43) (Binary64.b64 25))
    as (_ & mode1 & ratio1 & mode2 & ratio2 & dist1 & dist2 & co2_1 & co2_2
        & _ & Hrun & _ & _ & _ & _ & Hsum).
  - reflexivity.
  - reflexivity.
  - apply Qle_bool_imp_le. vm_compute. reflexivity.
  - apply Qle_bool_imp_le. vm_compute. reflexivity.
  - exists mode1, ratio1, mode2, ratio2, dist1, dist2, co2_1, co2_2.
    split; [exact Hrun|exact Hsum].
Defined.

(** C6, as stated, fails in binary64: at 10000000007 km with 1 ton, from
    the USA to China, the winner is Ship 90% / Train 10%, its segment
    distances are 9000000006.3000011 and 1000000000.7 km, and their sum is
    more than 1e-6 km away from the distance. *)
Lemma optimize_route_binary64_sum_off :
  ~ (forall (country1 city1 country2 city2 : string)
       (distance_km weight_tons : spec_float)
       (best : Binary64.combination) (total co2_1 co2_2 dist1 dist2 : spec_float),
       valid_binary prec emax distance_km = true ->
       valid_binary prec emax weight_tons = true ->
       Binary64.is_number distance_km = true ->
       Binary64.is_number weight_tons = true ->
       Binary64.optimize_route country1 city1 country2 city2
         distance_km weight_tons
       = Returned (Some best, total, Some (co2_1, co2_2), Some (dist1, dist2)) ->
       (Qabs (Binary64.SF2Q dist1 + Binary64.SF2Q dist2
              - Binary64.SF2Q distance_km) <= 1 # 1000000)%Q).
Proof.
  intros H.
  specialize (H "USA" "New York" "China" "Shanghai"
                (Binary64.b64 10000000007) (Binary64.b64 1)
                ("Ship", Binary64.b64 0.9, Some "Train", Binary64.b64 0.1)
                (Binary64.b64 172000000.12)
                (Binary64.b64 144000000.10080001) (Binary64.b64 28000000.0196)
                (Binary64.b64 9000000006.3000011) (Binary64.b64 1000000000.7)
                eq_refl eq_refl eq_refl eq_refl).
  assert (Hrun : Binary64.optimize_route "USA" "New York" "China" "Shanghai"
                   (Binary64.b64 10000000007) (Binary64.b64 1)
                 = Returned (Some ("Ship", Binary64.b64 0.9, Some "Train",
                                   Binary64.b64 0.1),
                             Binary64.b64 172000000.12,
                             Some (Binary64.b64 144000000.10080001,
                                   Binary64.b64 28000000.0196),
                             Some (Binary64.b64 9000000006.3000011,
                                   Binary64.b64 1000000000.7)))
    by (vm_compute; reflexivity).
  specialize (H Hrun). revert H. vm_compute. intros H. apply H. reflexivity.
Qed.

(** The same computation past the range of binary64: with 1e305 tons every
    candidate total is infinite, none is below [float('inf')], and no
    strategy is returned. *)
Example optimize_route_binary64_overflow :
  Binary64.optimize_route "USA" "New York" "China" "Shanghai"
    (Binary64.b64 11858.43) (Binary64.b64 1e305)
  = Returned (None, Binary64.inf, None, None).
Proof. vm_compute. reflexivity. Qed.

(** Paris to Sydney, 16960.5 km with 25 tons: the reported total is
    7293.01, one hundredth below the rounding of the exact decimal total
    7293.015. *)
Example optimize_route_binary64_paris_sydney :
  exists breakdown distances,
    Binary64.optimize_route "France" "Paris" "Australia" "Sydney"
      (Binary64.b64 16960.5) (Binary64.b64 25)
    = Returned (Some ("Ship", Binary64.b64 0.9, Some "Train", Binary64.b64 0.1),
                Binary64.b64 7293.01, breakdown, distances).
Proof. do 2 eexists. vm_compute. reflexivity. Qed.

(** ** The emission model *)

(** C4.  In binary64 [calculate_co2] returns [round(p, 2)], where [p] is
    the product distance x weight x factor(mode) computed left to right,
    with the factors Truck 0.096, Train 0.028, Ship 0.016 and Plane 0.602;
    a mode outside the table takes the Truck factor 0.096 and the call
    does not fail.  Rounded to 2 decimals: for a finite product the result
    is the binary64 number nearest to a whole number of hundredths that is
    at most 0.005 away from the exact value of [p]; a zero, infinite or NaN
    product is returned as it is. *)
Theorem calculate_co2_binary64_factor_table
    (country1 city1 country2 city2 mode : string)
    (distance_km weight_tons : spec_float) :
  let product f := Binary64.mul (Binary64.mul distance_km weight_tons) f in
  Binary64.calculate_co2 country1 city1 country2 city2 "Truck"
    distance_km weight_tons
  = Binary64.round (product (Binary64.b64 0.096)) 2 /\
  Binary64.calculate_co2 country1 city1 country2 city2 "Train"
    distance_km weight_tons
  = Binary64.round (product (Binary64.b64 0.028)) 2 /\
  Binary64.calculate_co2 country1 city1 country2 city2 "Ship"
    distance_km weight_tons
  = Binary64.round (product (Binary64.b64 0.016)) 2 /\
  Binary64.calculate_co2 country1 city1 country2 city2 "Plane"
    distance_km weight_tons
  = Binary64.round (product (Binary64.b64 0.602)) 2 /\
  (mode ∉ ["Truck"; "Train"; "Ship"; "Plane"] ->
   Binary64.calculate_co2 country1 city1 country2 city2 mode
     distance_km weight_tons
   = Binary64.round (product (Binary64.b64 0.096)) 2) /\
  Binary64.calculate_co2 country1 city1 country2 city2 mode
    distance_km weight_tons
  = Binary64.round (product (Binary64.factor mode)) 2 /\
  (forall (s : bool) (m : positive) (e : Z),
     product (Binary64.factor mode) = S754_finite s m e ->
     exists n : Z,
       (0 <= n)%Z /\
       (Qabs (inject_Z n / 100 - Binary64.SF2Q (S754_finite false m e))
        <= 1 # 200)%Q /\
       Binary64.calculate_co2 country1 city1 country2 city2 mode
         distance_km weight_tons
       = Binary64.of_decimal s n 2) /\
  ((forall (s : bool) (m : positive) (e : Z),
      product (Binary64.factor mode) <> S754_finite s m e) ->
   Binary64.calculate_co2 country1 city1 country2 city2 mode
     distance_km weight_tons
   = product (Binary64.factor mode)).
Proof.
  intros product.
  assert (Hcall : forall mode',
             Binary64.calculate_co2 country1 city1 country2 city2 mode'
               distance_km weight_tons
             = Binary64.round (product (Binary64.factor mode')) 2).
  { intros mode'. unfold Binary64.calculate_co2. rewrite dict_get_factor_binary64.
    reflexivity. }
  split; [apply (Hcall "Truck")|].
  split; [apply (Hcall "Train")|].
  split; [apply (Hcall "Ship")|].
  split; [apply (Hcall "Plane")|].
  split; [|split; [apply Hcall|split]].
  - intros Hout. rewrite Hcall. unfold Binary64.factor.
    rewrite !decide_False; [reflexivity|..];
      intros ->; apply Hout; apply list_elem_of_lookup;
      first [by exists 0%nat | by exists 1%nat | by exists 2%nat | by exists 3%nat].
  - intros s m e Hp. rewrite Hcall, Hp. apply round_hundredths.
  - intros Hp. rewrite Hcall.
    destruct (product (Binary64.factor mode)) as [s| s| |s m e] eqn:E;
      try reflexivity.
    exfalso. apply (Hp s m e). reflexivity.
Qed.

Lemma calculate_co2_binary64_factor_table_witness :
  Binary64.calculate_co2 "France" "Paris" "France" "Lyon" "Bicycle"
    (Binary64.b64 343.56) (Binary64.b64 1)
  = Binary64.round
      (Binary64.mul (Binary64.mul (Binary64.b64 343.56) (Binary64.b64 1))
         (Binary64.b64 0.096)) 2 /\
  exists n : Z,
    (0 <= n)%Z /\
    (Qabs (inject_Z n / 100 - Binary64.SF2Q (Binary64.b64 32.98176))
     <= 1 # 200)%Q /\
    Binary64.calculate_co2 "France" "Paris" "France" "Lyon" "Bicycle"
      (Binary64.b64 343.56) (Binary64.b64 1)
    = Binary64.of_decimal false n 2.
Proof.
  destruct (calculate_co2_binary64_factor_table
              "France" "Paris" "France" "Lyon" "Bicycle"
              (Binary64.b64 343.56) (Binary64.b64 1))
    as (_ & _ & _ & _ & Hfallback & _ & Hfinite & _).
  split.
  - apply Hfallback.
    intros H. repeat (apply elem_of_cons in H as [H|H]; [discriminate H|]).
    apply elem_of_nil in H. exact H.
  - apply (Hfinite false 4641770063938223%positive (-47)%Z).
    vm_compute. reflexivity.
Defined.

(** Scenario A of the specification: 343.56 km by truck, 1 ton. *)
Example calculate_co2_binary64_scenario_a :
  Binary64.calculate_co2 "United Kingdom" "London" "France" "Paris" "Truck"
    (Binary64.b64 343.56) (Binary64.b64 1)
  = Binary64.b64 32.98.
Proof. vm_compute. reflexivity. Qed.

(** A product at a decimal half-way point: by plane, 343.56 km with 187.5
    tons.  The exact decimal product is 38779.335; the binary64 product is
    38779.334999999999, and the result is 38779.33. *)
Example calculate_co2_binary64_halfway :
  Binary64.mul (Binary64.mul (Binary64.b64 343.56) (Binary64.b64 187.5))
    (Binary64.b64 0.602)
  = Binary64.b64 38779.334999999999 /\
  Binary64.calculate_co2 "United Kingdom" "London" "France" "Paris" "Plane"
    (Binary64.b64 343.56) (Binary64.b64 187.5)
  = Binary64.b64 38779.33.
Proof. split; vm_compute; reflexivity. Qed.

(** * Further properties of the engine *)

(** ** The search as a decision table *)

Section DecisionTable.
Local Open Scope Q_scope.

Variables distance_km weight_tons : Q.



Lemma total_zero (c : combination) :
  distance_km * weight_tons == 0 -> strategy_total distance_km weight_tons c == 0.
Proof. intros Hp. rewrite strategy_total_blend, Hp. ring. Qed.


(** When all entries tie, the first minimum is the first entry. *)
Lemma first_minimum_tie (total : combination -> Q) (l : list combination)
    (i : nat) (best c : combination) :
  first_minimum total l i best ->
  l !! 0%nat = Some c ->
  (forall j c', l !! j = Some c' -> total c' == 0) ->
  best = c.
Proof.
  intros (Hi & _ & Hlt) H0 Hz.
  destruct i as [|i]; [congruence|].
  exfalso. assert (H : total best < total c) by (eapply Hlt; [exact H0|lia]).
  rewrite (Hz _ _ Hi), (Hz _ _ H0) in H. discriminate H.
Qed.

End DecisionTable.







(** X3. When the distance or the weight is zero every candidate totals
    zero, and the strict comparison keeps the candidate enumerated first. *)
Theorem optimize_route_zero_product
    (country1 city1 country2 city2 : string) (distance_km weight_tons : Q) :
  (distance_km * weight_tons == 0)%Q ->
  optimize_route country1 city1 country2 city2 distance_km weight_tons =
    Returned (report distance_km weight_tons
                (first_listed (scope_of country1 country2) (band_of distance_km))) /\
  exists total,
    reported_total (report distance_km weight_tons
                      (first_listed (scope_of country1 country2) (band_of distance_km)))
      = Some total /\ (total == 0)%Q.
Proof.
  intros Hp.
  destruct (optimize_route_report country1 city1 country2 city2
              distance_km weight_tons) as (i & best & Hmin & ->).
  assert (Hbest : best = first_listed (scope_of country1 country2) (band_of distance_km)).
  { destruct (scope_of country1 country2), (band_of distance_km);
      (eapply (first_minimum_tie _ _ i); [exact Hmin|reflexivity|]);
      intros j c' _; apply total_zero, Hp. }
  rewrite Hbest. split; [reflexivity|].
  destruct (first_listed _ _) as [[[mode1 ratio1] mode2] ratio2] eqn:E.
  eexists. split; [reflexivity|].
  rewrite (round_comp _ 0) by (apply total_zero, Hp). reflexivity.
Qed.

Lemma optimize_route_zero_product_witness :
  (0 * 10 == 0)%Q /\
  (optimize_route "France" "Paris" "France" "Paris" 0 10 =
     Returned (report 0 10 (first_listed (scope_of "France" "France") (band_of 0))) /\
   exists total,
     reported_total (report 0 10 (first_listed (scope_of "France" "France") (band_of 0)))
       = Some total /\ (total == 0)%Q).
Proof.
  split; [reflexivity|].
  apply (optimize_route_zero_product "France" "Paris" "France" "Paris" 0 10).
  reflexivity.
Defined.

Section Sandwich.
Local Open Scope Q_scope.


End Sandwich.





(** ** Range of the distance calculator *)

Section DistanceRange.
Local Open Scope R_scope.

(** [Rround_half_even] picks the integer part or its successor, at most one
    half away. *)
Lemma Rround_half_even_bounds (x : R) :
  (Int_part x <= Rround_half_even x)%Z /\
  x - 1 / 2 <= IZR (Rround_half_even x) <= x + 1 / 2.
Proof.
  unfold Rround_half_even.
  pose proof (base_Int_part x) as [Hlo Hhi].
  assert (Hf : frac_part x = x - IZR (Int_part x)) by reflexivity.
  destruct (Rlt_dec (frac_part x) (1 / 2)) as [H1|H1];
    [|destruct (Rlt_dec (1 / 2) (frac_part x)) as [H2|H2];
      [|destruct (Z.even (Int_part x))]];
    rewrite ?plus_IZR; (split; [lia|split; simpl; lra]).
Qed.

Lemma Int_part_nonneg (x : R) : 0 <= x -> (0 <= Int_part x)%Z.
Proof.
  intros Hx. pose proof (base_Int_part x) as [_ Hhi].
  assert (H : (-1 < Int_part x)%Z) by (apply lt_IZR; simpl; lra). lia.
Qed.

Lemma hundred : 10 ^ 2 = 100.
Proof. simpl. lra. Qed.

(** Rounding a non-negative real to 2 decimals gives a non-negative real at
    most 0.005 above it. *)
Lemma Rround2_range (x : R) : 0 <= x -> 0 <= Rround x 2 <= x + 1 / 200.
Proof.
  intros Hx. unfold Rround. rewrite hundred.
  pose proof (Rround_half_even_bounds (x * 100)) as [Hint [_ Hhi]].
  assert (Hnn : (0 <= Int_part (x * 100))%Z) by (apply Int_part_nonneg; lra).
  assert (H0 : 0 <= IZR (Rround_half_even (x * 100))) by (apply IZR_le; lia).
  split; lra.
Qed.

Lemma Rround2_zero : Rround 0 2 = 0.
Proof.
  unfold Rround. rewrite Rmult_0_l.
  assert (H : Rround_half_even 0 = 0%Z).
  { pose proof (Rround_half_even_bounds 0) as [_ [Hlo Hhi]].
    assert (H1 : (-1 < Rround_half_even 0)%Z) by (apply lt_IZR; simpl; lra).
    assert (H2 : (Rround_half_even 0 < 1)%Z) by (apply lt_IZR; simpl; lra).
    lia. }
  rewrite H. simpl. lra.
Qed.

(** For non-negative arguments [math_atan2] is an angle of the first
    quadrant. *)
Lemma math_atan2_first_quadrant (y x : R) :
  0 <= y -> 0 <= x -> 0 <= math_atan2 y x <= PI / 2.
Proof.
  intros Hy Hx. unfold math_atan2. pose proof PI_RGT_0 as Hpi.
  destruct (Rlt_dec 0 x) as [Hpos|Hnpos].
  - pose proof (atan_bound (y / x)) as [_ Hup].
    assert (Hq : 0 <= y / x).
    { unfold Rdiv. apply Rmult_le_pos; [exact Hy|].
      apply Rlt_le, Rinv_0_lt_compat, Hpos. }
    split; [|lra].
    destruct Hq as [Hq|<-]; [|rewrite atan_0; lra].
    apply Rlt_le. rewrite <- atan_0. apply atan_increasing, Hq.
  - destruct (Rlt_dec x 0); [exfalso; lra|].
    destruct (Rlt_dec 0 y); [lra|].
    destruct (Rlt_dec y 0); [exfalso; lra|]. lra.
Qed.

Lemma math_atan2_zero_one : math_atan2 0 1 = 0.
Proof.
  unfold math_atan2. destruct (Rlt_dec 0 1); [|exfalso; lra].
  replace (0 / 1) with 0 by field. apply atan_0.
Qed.

Lemma PI_above_3 : 3 < PI.
Proof. pose proof PI2_3_2. lra. Qed.

(** Between two resolved locations the result is the rounded haversine
    distance. *)
Lemma calculate_distance_resolved (country1 city1 country2 city2 : string) :
  ~ unresolved (get_coordinates country1 city1) ->
  ~ unresolved (get_coordinates country2 city2) ->
  calculate_distance country1 city1 country2 city2 =
  Returned (Rround (haversine_km (get_coordinates country1 city1)
                                 (get_coordinates country2 city2)) 2).
Proof.
  unfold calculate_distance, haversine_km.
  destruct (get_coordinates country1 city1) as [lat1 lon1].
  destruct (get_coordinates country2 city2) as [lat2 lon2].
  intros H1 H2.
  apply sentinel_test_false in H1, H2. rewrite H1, H2. simpl orb. cbv iota.
  simpl fst. simpl snd.
  rewrite haversine_arg_code.
  pose proof (haversine_arg_range (math_radians lat1) (math_radians lat2)
                (math_radians lon2 - math_radians lon1)) as [Hlo Hhi].
  rewrite (math_sqrt_nonneg _ Hlo).
  rewrite (math_sqrt_nonneg (1 - _)) by lra.
  reflexivity.
Qed.

(** The haversine distance from a point to itself is zero. *)
Lemma haversine_km_self (p : R * R) : haversine_km p p = 0.
Proof.
  unfold haversine_km.
  replace (math_radians (fst p) - math_radians (fst p)) with 0 by ring.
  replace (math_radians (snd p) - math_radians (snd p)) with 0 by ring.
  replace (0 / 2) with 0 by field.
  rewrite sin_0, Rsqr_0, Rmult_0_r, Rplus_0_r, Rminus_0_r, sqrt_0, sqrt_1.
  rewrite math_atan2_zero_one. ring.
Qed.

End DistanceRange.

(** X6. [calculate_distance] never raises, and its result is a distance
    between 0 km and half the circumference of the sphere, 6371 x PI km, up
    to the 0.005 km of the final rounding; the 500 km fallback is inside
    this range. *)
Theorem calculate_distance_range (country1 city1 country2 city2 : string) :
  exists d : R,
    calculate_distance country1 city1 country2 city2 = Returned d /\
    (0 <= d <= 6371 * PI + 1 / 200)%R.
Proof.
  pose proof PI_above_3 as Hpi.
  unfold calculate_distance.
  destruct (get_coordinates country1 city1) as [lat1 lon1].
  destruct (get_coordinates country2 city2) as [lat2 lon2].
  destruct (Reqb lat1 0 && Reqb lon1 0 || Reqb lat2 0 && Reqb lon2 0).
  - exists 500%R. split; [reflexivity|lra].
  - rewrite haversine_arg_code.
    pose proof (haversine_arg_range (math_radians lat1) (math_radians lat2)
                  (math_radians lon2 - math_radians lon1)) as [Hlo Hhi].
    rewrite (math_sqrt_nonneg _ Hlo).
    rewrite (math_sqrt_nonneg (1 - _)) by lra.
    eexists. split; [reflexivity|].
    match goal with
    | |- (0 <= Rround (_ * (2 * math_atan2 ?y ?x)) 2 <= _)%R =>
        pose proof (math_atan2_first_quadrant y x (sqrt_pos _) (sqrt_pos _))
          as [Ha1 Ha2];
        pose proof (Rround2_range (6371 * (2 * math_atan2 y x))) as Hr
    end.
    lra.
Qed.

(** X7. The distance from a location to itself is 0 km when the location is
    in the table, and the 500 km fallback when it is not. *)
Theorem calculate_distance_self (country city : string) :
  (~ unresolved (get_coordinates country city) ->
   calculate_distance country city country city = Returned 0%R) /\
  (unresolved (get_coordinates country city) ->
   calculate_distance country city country city = Returned 500%R).
Proof.
  split.
  - intros H. rewrite (calculate_distance_resolved _ _ _ _ H H).
    rewrite haversine_km_self, Rround2_zero. reflexivity.
  - intros H. unfold calculate_distance.
    destruct (get_coordinates country city) as [lat lon].
    apply sentinel_test in H. rewrite H. reflexivity.
Qed.

Lemma calculate_distance_self_witness :
  calculate_distance "France" "Paris" "France" "Paris" = Returned 0%R /\
  calculate_distance "France" "Lyon" "France" "Lyon" = Returned 500%R.
Proof.
  split.
  - apply (calculate_distance_self "France" "Paris").
    change (get_coordinates "France" "Paris") with (48.8566, 2.3522)%R.
    unfold unresolved. intros H. injection H as H _. lra.
  - apply (calculate_distance_self "France" "Lyon"). reflexivity.
Defined.

(** ** Place names stored with a route *)

Section PlaceNames.

Lemma str_app_nil_r (s : string) : s +:+ EmptyString = s.
Proof.
  induction s as [|c s IH]; [reflexivity|].
  change (String c (s +:+ EmptyString) = String c s). rewrite IH. reflexivity.
Qed.

Lemma str_app_assoc (s1 s2 s3 : string) : (s1 +:+ s2) +:+ s3 = s1 +:+ (s2 +:+ s3).
Proof.
  induction s1 as [|c s1 IH]; [reflexivity|].
  change (String c ((s1 +:+ s2) +:+ s3) = String c (s1 +:+ (s2 +:+ s3))).
  rewrite IH. reflexivity.
Qed.

(** A text without separator is a single piece. *)
Lemma split_without_separator (cur s : string) :
  has_comma_space s = false -> split_comma_space cur s = [cur +:+ s].
Proof.
  revert cur. induction s as [|c rest IH]; intros cur Hs.
  - rewrite str_app_nil_r. reflexivity.
  - destruct rest as [|c' rest'].
    + reflexivity.
    + apply orb_false_iff in Hs as [Htest Hrest].
      change (split_comma_space cur (String c (String c' rest')))
        with (if Ascii.eqb c ","%char && Ascii.eqb c' " "%char
              then cur :: split_comma_space EmptyString rest'
              else split_comma_space (cur +:+ String c EmptyString) (String c' rest')).
      rewrite Htest, (IH _ Hrest), str_app_assoc. reflexivity.
Qed.

(** A piece without separator, followed by the separator, is split off. *)
Lemma split_first_piece (cur piece tail : string) :
  has_comma_space piece = false ->
  split_comma_space cur (piece +:+ ", " +:+ tail) =
  (cur +:+ piece) :: split_comma_space EmptyString tail.
Proof.
  revert cur. induction piece as [|c rest IH]; intros cur Hp.
  - rewrite str_app_nil_r. reflexivity.
  - destruct rest as [|c' rest'].
    + change (split_comma_space cur (String c EmptyString +:+ ", " +:+ tail))
        with (if Ascii.eqb c ","%char && Ascii.eqb ","%char " "%char
              then cur :: split_comma_space EmptyString (String " " tail)
              else split_comma_space (cur +:+ String c EmptyString)
                     (EmptyString +:+ ", " +:+ tail)).
      change (Ascii.eqb ","%char " "%char) with false. rewrite andb_false_r.
      rewrite (IH _ eq_refl), str_app_nil_r. reflexivity.
    + apply orb_false_iff in Hp as [Htest Hrest].
      change (split_comma_space cur (String c (String c' rest') +:+ ", " +:+ tail))
        with (if Ascii.eqb c ","%char && Ascii.eqb c' " "%char
              then cur :: split_comma_space EmptyString (rest' +:+ ", " +:+ tail)
              else split_comma_space (cur +:+ String c EmptyString)
                     (String c' rest' +:+ ", " +:+ tail)).
      rewrite Htest, (IH _ Hrest), str_app_assoc. reflexivity.
Qed.

Lemma split_format_place (city country : string) :
  has_comma_space city = false -> has_comma_space country = false ->
  str_split_comma_space (format_place city country) = [city; country].
Proof.
  intros Hcity Hcountry. unfold str_split_comma_space, format_place.
  rewrite (split_first_piece _ _ _ Hcity), (split_without_separator _ _ Hcountry).
  reflexivity.
Qed.

End PlaceNames.

(** X8. Round trip of the place names: when no city or country name
    contains the separator [", "], the strings [f"{city}, {country}"] that
    the Calculate page stores are read back by the Reports and Route
    Visualizer pages as the same four names, without an [IndexError]. *)
Theorem parse_route_format_place
    (source_city source_country dest_city dest_country : string) :
  has_comma_space source_city = false -> has_comma_space source_country = false ->
  has_comma_space dest_city = false -> has_comma_space dest_country = false ->
  parse_route (format_place source_city source_country)
              (format_place dest_city dest_country) =
  Done (source_country, source_city, dest_country, dest_city).
Proof.
  intros H1 H2 H3 H4. unfold parse_route.
  rewrite (split_format_place _ _ H1 H2), (split_format_place _ _ H3 H4).
  reflexivity.
Qed.

Lemma parse_route_format_place_witness :
  has_comma_space "New York" = false /\ has_comma_space "USA" = false /\
  has_comma_space "Shanghai" = false /\ has_comma_space "China" = false /\
  parse_route (format_place "New York" "USA") (format_place "Shanghai" "China") =
  Done ("USA", "New York", "China", "Shanghai").
Proof.
  repeat (split; [reflexivity|]).
  apply (parse_route_format_place "New York" "USA" "Shanghai" "China"); reflexivity.
Defined.

(** X9. A stored source or destination without the separator [", "] makes
    the look-up of the country, [x.split(', ')[1]], raise [IndexError]:
    the split has a single piece. *)
Theorem parse_route_without_separator (source destination : string) :
  has_comma_space source = false \/ has_comma_space destination = false ->
  parse_route source destination = Failed IndexError.
Proof.
  unfold parse_route, str_split_comma_space. intros [H|H].
  - rewrite (split_without_separator _ _ H). reflexivity.
  - rewrite (split_without_separator _ _ H).
    destruct (list_index (split_comma_space EmptyString source) 1) as [x|e] eqn:E1.
    + destruct (list_index (split_comma_space EmptyString source) 0) as [y|e] eqn:E0.
      * reflexivity.
      * exfalso. unfold list_index in E0, E1.
        destruct (split_comma_space EmptyString source) as [|p l]; discriminate.
    + unfold list_index in E1.
      destruct (split_comma_space EmptyString source !! 1%nat); [discriminate|].
      injection E1 as <-. reflexivity.
Qed.

Lemma parse_route_without_separator_witness :
  (has_comma_space "Paris" = false \/ has_comma_space "New York, USA" = false) /\
  parse_route "Paris" "New York, USA" = Failed IndexError.
Proof.
  split; [left; reflexivity|].
  apply (parse_route_without_separator "Paris" "New York, USA").
  left. reflexivity.
Defined.

(** ** The query of [get_suppliers] *)

(** X10. Whatever the filters, the SQL text that [get_suppliers] builds has
    exactly as many [?] placeholders as the parameter list has entries, so
    the statement always binds. *)
Theorem get_suppliers_query_placeholders
    (str_lower : string -> string) (country city material : option string) :
  count_char "?" (fst (get_suppliers_query str_lower country city material)) =
  length (snd (get_suppliers_query str_lower country city material)).
Proof.
  unfold get_suppliers_query.
  destruct (truthy country && bool_decide (country <> Some "All")),
    (truthy city && bool_decide (city <> Some "All")), (truthy material);
    reflexivity.
Qed.

(** X11. The SQL text depends only on which of the three filters are in
    force, never on their values: the country, the city and the material
    typed by the user travel in the parameter list alone. *)
Theorem get_suppliers_query_text
    (str_lower str_lower' : string -> string)
    (country city material country' city' material' : option string) :
  place_filter country = place_filter country' ->
  place_filter city = place_filter city' ->
  truthy material = truthy material' ->
  fst (get_suppliers_query str_lower country city material) =
  fst (get_suppliers_query str_lower' country' city' material') /\
  fst (get_suppliers_query str_lower country city material) ∈
    [ "SELECT * FROM suppliers";
      "SELECT * FROM suppliers WHERE country = ?";
      "SELECT * FROM suppliers WHERE city = ?";
      "SELECT * FROM suppliers WHERE LOWER(material) LIKE ?";
      "SELECT * FROM suppliers WHERE country = ? AND city = ?";
      "SELECT * FROM suppliers WHERE country = ? AND LOWER(material) LIKE ?";
      "SELECT * FROM suppliers WHERE city = ? AND LOWER(material) LIKE ?";
      "SELECT * FROM suppliers WHERE country = ? AND city = ? AND LOWER(material) LIKE ?" ].
Proof.
  unfold get_suppliers_query, place_filter. intros <- <- <-.
  destruct (truthy country && bool_decide (country <> Some "All")),
    (truthy city && bool_decide (city <> Some "All")), (truthy material);
    (split; [reflexivity|]); apply list_elem_of_lookup;
    first [ by exists 0%nat | by exists 1%nat | by exists 2%nat | by exists 3%nat
          | by exists 4%nat | by exists 5%nat | by exists 6%nat | by exists 7%nat ].
Qed.

Lemma get_suppliers_query_text_witness :
  place_filter (Some "France") = place_filter (Some "x' OR '1'='1") /\
  place_filter None = place_filter (Some "All") /\
  truthy (Some "steel") = truthy (Some "%") /\
  fst (get_suppliers_query (fun s => s) (Some "France") None (Some "steel")) =
  fst (get_suppliers_query (fun s => s) (Some "x' OR '1'='1") (Some "All") (Some "%")).
Proof.
  repeat (split; [reflexivity|]).
  apply (get_suppliers_query_text (fun s => s) (fun s => s)
           (Some "France") None (Some "steel")
           (Some "x' OR '1'='1") (Some "All") (Some "%")); reflexivity.
Defined.

(** ** The database helpers *)

Section Database.

Lemma insert_or_ignore_extends (tbl : list supplier_row) (row : supplier_row) :
  exists added, insert_or_ignore tbl row = tbl ++ added /\ added ⊆ [row].
Proof.
  unfold insert_or_ignore. case_bool_decide.
  - exists []. rewrite app_nil_r. split; [reflexivity|]. apply list_subseteq_nil.
  - exists [row]. split; reflexivity.
Qed.

Lemma insert_or_ignore_NoDup (tbl : list supplier_row) (row : supplier_row) :
  NoDup (sup_id <$> tbl) -> NoDup (sup_id <$> insert_or_ignore tbl row).
Proof.
  intros Hnd. unfold insert_or_ignore. case_bool_decide as Hin; [exact Hnd|].
  rewrite fmap_app. apply NoDup_app. split; [exact Hnd|]. split.
  - intros x Hx Hx'. simpl in Hx'. apply list_elem_of_singleton in Hx'. subst x.
    exact (Hin Hx).
  - simpl. apply NoDup_singleton.
Qed.

(** Inserting rows leaves the stored ones in place, adds only rows of the
    batch and keeps the keys distinct. *)
Lemma executemany_insert_or_ignore (rows tbl : list supplier_row) :
  NoDup (sup_id <$> tbl) ->
  exists added,
    fold_left insert_or_ignore rows tbl = tbl ++ added /\
    added ⊆ rows /\
    NoDup (sup_id <$> fold_left insert_or_ignore rows tbl).
Proof.
  revert tbl. induction rows as [|row rows IH]; intros tbl Hnd.
  - exists []. rewrite app_nil_r. split; [reflexivity|]. split; [|exact Hnd].
    apply list_subseteq_nil.
  - simpl fold_left.
    destruct (insert_or_ignore_extends tbl row) as (a1 & E1 & Ha1).
    destruct (IH _ (insert_or_ignore_NoDup tbl row Hnd)) as (a2 & E2 & Ha2 & Hnd2).
    exists (a1 ++ a2). split; [|split; [|exact Hnd2]].
    + rewrite E2, E1, app_assoc. reflexivity.
    + intros x Hx. apply elem_of_app in Hx as [Hx|Hx].
      * apply Ha1 in Hx. apply list_elem_of_singleton in Hx. subst x. left.
      * right. apply Ha2, Hx.
Qed.

(** With keys that are new and pairwise distinct, every row of the batch
    is appended. *)
Lemma executemany_fresh (rows tbl : list supplier_row) :
  NoDup (sup_id <$> rows) ->
  (forall row, row ∈ rows -> sup_id row ∉ sup_id <$> tbl) ->
  fold_left insert_or_ignore rows tbl = tbl ++ rows.
Proof.
  revert tbl. induction rows as [|row rows IH]; intros tbl Hnd Hfresh.
  - rewrite app_nil_r. reflexivity.
  - simpl fold_left. simpl in Hnd. apply NoDup_cons in Hnd as [Hrow Hnd].
    unfold insert_or_ignore at 2.
    rewrite bool_decide_false by (apply Hfresh; left).
    rewrite IH.
    + rewrite <- app_assoc. reflexivity.
    + exact Hnd.
    + intros r Hr. rewrite fmap_app. intros Hin.
      apply elem_of_app in Hin as [Hin|Hin].
      * apply (Hfresh r); [right; exact Hr|exact Hin].
      * simpl in Hin. apply list_elem_of_singleton in Hin.
        apply Hrow. rewrite <- Hin. apply list_elem_of_fmap_2. exact Hr.
Qed.

End Database.

(** X12. [init_db] never loses data: the emissions table is untouched, the
    suppliers already stored stay in place and in order, the rows it adds
    are sample suppliers, and the primary keys stay pairwise distinct. *)
Theorem init_db_preserves (uuid4 : nat -> string) (db : database) :
  NoDup (sup_id <$> suppliers db) ->
  emissions (init_db uuid4 db) = emissions db /\
  NoDup (sup_id <$> suppliers (init_db uuid4 db)) /\
  exists added,
    suppliers (init_db uuid4 db) = suppliers db ++ added /\
    added ⊆ sample_suppliers uuid4.
Proof.
  intros Hnd. split; [reflexivity|].
  destruct (executemany_insert_or_ignore (sample_suppliers uuid4) (suppliers db) Hnd)
    as (added & E & Hsub & Hnd').
  split; [exact Hnd'|]. exists added. split; [exact E|exact Hsub].
Qed.

Lemma init_db_preserves_witness :
  NoDup (sup_id <$> suppliers stored_database) /\
  emissions (init_db letter_id stored_database) = emissions stored_database /\
  NoDup (sup_id <$> suppliers (init_db letter_id stored_database)) /\
  exists added,
    suppliers (init_db letter_id stored_database)
      = suppliers stored_database ++ added /\
    added ⊆ sample_suppliers letter_id.
Proof.
  assert (Hnd : NoDup (sup_id <$> suppliers stored_database))
    by (refine (bool_decide_unpack _ _); vm_compute; exact I).
  split; [exact Hnd|].
  apply (init_db_preserves letter_id stored_database). exact Hnd.
Defined.

(** On that database [init_db] keeps the two stored suppliers and the
    stored shipment; the sample row drawn under the identifier ["A"], which
    is taken, is skipped, and the other 17 are appended. *)
Example init_db_stored_database :
  suppliers (init_db letter_id stored_database)
    = suppliers stored_database ++ tail (sample_suppliers letter_id) /\
  emissions (init_db letter_id stored_database) = emissions one_truck_shipment.
Proof. split; vm_compute; reflexivity. Qed.

(** X13. [init_db] is not idempotent: the sample suppliers get new
    identifiers at every call, so when the 18 identifiers are pairwise
    distinct and not yet in the table, [INSERT OR IGNORE] ignores nothing
    and the table grows by the 18 sample rows, again at every start of the
    application. *)
Theorem init_db_appends_samples (uuid4 : nat -> string) (db : database) :
  NoDup (uuid4 <$> seq 0 18) ->
  (forall i, (i < 18)%nat -> uuid4 i ∉ sup_id <$> suppliers db) ->
  suppliers (init_db uuid4 db) = suppliers db ++ sample_suppliers uuid4 /\
  length (suppliers (init_db uuid4 db)) = (length (suppliers db) + 18)%nat.
Proof.
  intros Hnd Hfresh.
  assert (E : suppliers (init_db uuid4 db) = suppliers db ++ sample_suppliers uuid4).
  { change (suppliers (init_db uuid4 db))
      with (fold_left insert_or_ignore (sample_suppliers uuid4) (suppliers db)).
    apply executemany_fresh.
    - exact Hnd.
    - intros row Hrow.
      assert (Hid : exists i, (i < 18)%nat /\ sup_id row = uuid4 i).
      { unfold sample_suppliers in Hrow.
        repeat (apply elem_of_cons in Hrow as [->|Hrow];
                [eexists; split; [|reflexivity]; lia|]).
        apply elem_of_nil in Hrow. destruct Hrow. }
      destruct Hid as (i & Hi & ->). apply Hfresh, Hi. }
  split; [exact E|]. rewrite E, length_app. reflexivity.
Qed.

Lemma init_db_appends_samples_witness :
  NoDup (letter_id <$> seq 0 18) /\
  (forall i, (i < 18)%nat ->
     letter_id i ∉ sup_id <$> suppliers {| suppliers := []; emissions := [] |}) /\
  suppliers (init_db letter_id {| suppliers := []; emissions := [] |})
    = [] ++ sample_suppliers letter_id /\
  length (suppliers (init_db letter_id {| suppliers := []; emissions := [] |}))
    = (0 + 18)%nat.
Proof.
  assert (H1 : NoDup (letter_id <$> seq 0 18))
    by (refine (bool_decide_unpack _ _); vm_compute; exact I).
  assert (H2 : forall i, (i < 18)%nat ->
            letter_id i ∉ sup_id <$> suppliers {| suppliers := []; emissions := [] |})
    by (intros i _; apply not_elem_of_nil).
  split; [exact H1|]. split; [exact H2|].
  apply (init_db_appends_samples letter_id
           {| suppliers := []; emissions := [] |} H1 H2).
Defined.

(** X14. [save_emission] appends exactly the row it is given, with the
    values it is given, after the stored rows, touches neither those rows
    nor the suppliers, and keeps the primary keys distinct; a duplicate
    identifier is refused with [IntegrityError]. *)
Theorem save_emission_get_emissions (uuid4 now source destination transport_mode : string)
    (distance_km co2_kg weight_tons : Q) (db : database) :
  NoDup (em_id <$> emissions db) ->
  (uuid4 ∉ em_id <$> emissions db ->
   exists db',
     save_emission uuid4 now source destination transport_mode
       distance_km co2_kg weight_tons db = Done db' /\
     get_emissions db' =
       get_emissions db ++
       [ {| em_id := uuid4; em_source := source; em_destination := destination;
            em_transport_mode := transport_mode; em_distance_km := distance_km;
            em_co2_kg := co2_kg; em_weight_tons := weight_tons;
            em_timestamp := now |} ] /\
     suppliers db' = suppliers db /\
     NoDup (em_id <$> emissions db')) /\
  (uuid4 ∈ em_id <$> emissions db ->
   save_emission uuid4 now source destination transport_mode
     distance_km co2_kg weight_tons db = Failed IntegrityError).
Proof.
  intros Hnd. unfold save_emission. split; intros Hid.
  - rewrite bool_decide_false by exact Hid. eexists. split; [reflexivity|].
    split; [reflexivity|]. split; [reflexivity|].
    simpl emissions. rewrite fmap_app. apply NoDup_app. split; [exact Hnd|]. split.
    + intros x Hx Hx'. simpl in Hx'. apply list_elem_of_singleton in Hx'. subst x.
      exact (Hid Hx).
    + simpl. apply NoDup_singleton.
  - rewrite bool_decide_true by exact Hid. reflexivity.
Qed.

Lemma save_emission_get_emissions_witness :
  exists db',
    save_emission "id-1" "2025-04-01 12:00:00" "Paris, France" "New York, USA" "Plane"
      5837.24 35140.18 10 {| suppliers := []; emissions := [] |} = Done db' /\
    get_emissions db' =
      [ {| em_id := "id-1"; em_source := "Paris, France";
           em_destination := "New York, USA"; em_transport_mode := "Plane";
           em_distance_km := 5837.24; em_co2_kg := 35140.18;
           em_weight_tons := 10; em_timestamp := "2025-04-01 12:00:00" |} ].
Proof.
  destruct (save_emission_get_emissions "id-1" "2025-04-01 12:00:00"
              "Paris, France" "New York, USA" "Plane" 5837.24 35140.18 10
              {| suppliers := []; emissions := [] |}) as [Hfresh _].
  - apply NoDup_nil_2.
  - destruct Hfresh as (db' & Hsave & Hget & _); [apply not_elem_of_nil|].
    exists db'. split; [exact Hsave|exact Hget].
Defined.

(** ** The Reports page *)

Section Reports.
Local Open Scope Q_scope.






End Reports.





(** X17. For each of the four supported currencies the conversion succeeds
    with a positive price per kg, the cost saving is the CO2 saving times
    that price, and so it has the sign of the CO2 saving and grows with
    it. *)
Theorem total_cost_savings_supported (currency : string) :
  currency ∈ ["EUR"; "USD"; "AUD"; "SAR"] ->
  exists price : Q,
    (0 < price)%Q /\
    carbon_price_per_kg currency = Returned price /\
    (forall total_savings,
       total_cost_savings total_savings currency = Returned (total_savings * price)%Q) /\
    (forall s1 s2 c1 c2,
       (s1 <= s2)%Q ->
       total_cost_savings s1 currency = Returned c1 ->
       total_cost_savings s2 currency = Returned c2 -> (c1 <= c2)%Q).
Proof.
  intros Hcur.
  assert (Hprice : exists price : Q,
            (0 < price)%Q /\ carbon_price_per_kg currency = Returned price).
  { repeat (apply elem_of_cons in Hcur as [->|Hcur];
            [eexists; split; [|vm_compute; reflexivity]; reflexivity|]).
    apply elem_of_nil in Hcur. destruct Hcur. }
  destruct Hprice as (price & Hpos & Hprice).
  exists price. split; [exact Hpos|]. split; [exact Hprice|].
  unfold total_cost_savings. rewrite Hprice. split.
  - intros s. reflexivity.
  - intros s1 s2 c1 c2 Hle E1 E2. simpl in E1, E2.
    injection E1 as <-. injection E2 as <-. nra.
Qed.

Lemma total_cost_savings_supported_witness :
  exists price : Q,
    (0 < price)%Q /\ carbon_price_per_kg "USD" = Returned price /\
    total_cost_savings 100 "USD" = Returned (100 * price)%Q.
Proof.
  destruct (total_cost_savings_supported "USD") as (price & Hpos & Hprice & Hcost & _).
  - apply list_elem_of_lookup. exists 1%nat. reflexivity.
  - exists price. split; [exact Hpos|]. split; [exact Hprice|apply Hcost].
Defined.

(** ** More on the engine *)

(** X18. [get_coordinates] returns the sentinel (0, 0) exactly when the
    country or the city is missing from [LOCATIONS]: no entry of the table
    is (0, 0), so a location of the table is never taken for an unresolved
    one. *)
Theorem get_coordinates_sentinel_iff_missing (country city : string) :
  unresolved (get_coordinates country city) <->
  (LOCATIONS !! country) ≫= (fun cities => cities !! city) = None.
Proof.
  split; intros H.
  - apply (proj1 (get_coordinates_unresolved country city)), H.
  - apply (proj2 (get_coordinates_unresolved country city)), H.
Qed.

(** X19. [optimize_route] does not read the cities and uses the countries
    only to test whether they are equal: two calls with the same distance
    and weight whose country pairs are both equal or both different return
    the same result. *)
Theorem optimize_route_ignores_places
    (country1 city1 country2 city2 country1' city1' country2' city2' : string)
    (distance_km weight_tons : Q) :
  (country1 = country2 <-> country1' = country2') ->
  optimize_route country1 city1 country2 city2 distance_km weight_tons =
  optimize_route country1' city1' country2' city2' distance_km weight_tons.
Proof.
  intros Hsame. unfold optimize_route.
  rewrite !combinations_table.
  assert (E : scope_of country1 country2 = scope_of country1' country2').
  { unfold scope_of. destruct (decide (country1 = country2)) as [H|H].
    - rewrite decide_True by (apply Hsame, H). reflexivity.
    - rewrite decide_False by (intros H'; apply H, Hsame, H'). reflexivity. }
  rewrite E. reflexivity.
Qed.

Lemma optimize_route_ignores_places_witness :
  ("United Kingdom" = "France" <-> "USA" = "China") /\
  optimize_route "United Kingdom" "London" "France" "Paris" 343.56 1 =
  optimize_route "USA" "New York" "China" "Shanghai" 343.56 1.
Proof.
  assert (H : "United Kingdom" = "France" <-> "USA" = "China")
    by (split; intros E; discriminate E).
  split; [exact H|].
  apply (optimize_route_ignores_places "United Kingdom" "London" "France" "Paris"
           "USA" "New York" "China" "Shanghai" 343.56 1 H).
Defined.
